(** * Presentor: the markdown-to-presentation parser (src/parser.ts)

    A shallow embedding of the parsing pipeline

      parse = parseFrontmatter ; splitIntoSlides ; map parseSlide ; title back-fill

    together with the chart and mind-map mini-language parsers and the
    layout inference, followed by the properties of the specification.
    Two consumers of the parsed model close the file: the HTML escaping of
    src/generators/html.ts and the word wrap of the mind-map renderer.

    Strings.  A JavaScript string is a sequence of UTF-16 code units.  The
    embedding uses [string]; a character of type [ascii] stands for the code
    unit with the same number, so the strings covered are those whose code
    units are below 256 (Latin-1).  Within that range the white space of
    [String.prototype.trim] and of the regular-expression class \s is
    TAB, LF, VT, FF, CR, SPACE and NBSP; the line terminators, which the
    regular-expression dot does not match, are LF and CR. *)

From Stdlib Require Import Bool Arith Lia List String Ascii NArith ZArith QArith.
Import ListNotations.

Open Scope string_scope.
Open Scope list_scope.
Open Scope nat_scope.

(* ================================================================== *)
(** * JavaScript string primitives *)
(* ================================================================== *)

Module JS.

Definition code (c : ascii) : N := N_of_ascii c.

(** White space of [trim] and of the class \s. *)
Definition is_space (c : ascii) : bool :=
  let n := code c in
  ((9 <=? n) && (n <=? 13) || (n =? 32) || (n =? 160))%N.

(** Line terminators: the characters the dot of a regular expression
    refuses. *)
Definition is_line_terminator (c : ascii) : bool :=
  let n := code c in ((n =? 10) || (n =? 13))%N.

Definition is_dot (c : ascii) : bool := negb (is_line_terminator c).

(** The class \d. *)
Definition is_digit (c : ascii) : bool :=
  let n := code c in ((48 <=? n) && (n <=? 57))%N.

Definition is_char (d : ascii) (c : ascii) : bool := Ascii.eqb c d.

Definition is_not (d : ascii) (c : ascii) : bool := negb (Ascii.eqb c d).

Definition any_char (c : ascii) : bool := true.

(** [toLowerCase] on one code unit below 256: A-Z and the Latin-1 capitals
    (all of 192..222 but the multiplication sign 215) move up by 32. *)
Definition lower_char (c : ascii) : ascii :=
  let n := code c in
  if ((65 <=? n) && (n <=? 90)
      || (192 <=? n) && (n <=? 222) && negb (n =? 215))%N
  then ascii_of_N (n + 32) else c.

Fixpoint toLowerCase (s : string) : string :=
  match s with
  | EmptyString => EmptyString
  | String c r => String (lower_char c) (toLowerCase r)
  end.

Definition is_empty (s : string) : bool :=
  match s with EmptyString => true | _ => false end.

Fixpoint trimStart (s : string) : string :=
  match s with
  | String c r => if is_space c then trimStart r else s
  | EmptyString => EmptyString
  end.

Fixpoint trimEnd (s : string) : string :=
  match s with
  | EmptyString => EmptyString
  | String c r =>
      let r' := trimEnd r in
      if is_space c && is_empty r' then EmptyString else String c r'
  end.

Definition trim (s : string) : string := trimEnd (trimStart s).

(** [s.startsWith(p)] *)
Definition startsWith (s p : string) : bool := String.prefix p s.

(** [s.split(sep)] for a one-character separator: never the empty list. *)
Fixpoint split (sep : ascii) (s : string) : list string :=
  match s with
  | EmptyString => [EmptyString]
  | String c r =>
      if Ascii.eqb c sep then EmptyString :: split sep r
      else match split sep r with
           | h :: t => String c h :: t
           | [] => [String c EmptyString]
           end
  end.

(** [xs.join(sep)] *)
Fixpoint join (sep : string) (xs : list string) : string :=
  match xs with
  | [] => EmptyString
  | [x] => x
  | x :: rest => (x ++ sep ++ join sep rest)%string
  end.

(** [s.indexOf(c)] for one character, [None] standing for -1. *)
Fixpoint indexOf (c : ascii) (s : string) : option nat :=
  match s with
  | EmptyString => None
  | String d r =>
      if Ascii.eqb d c then Some 0
      else match indexOf c r with Some n => Some (S n) | None => None end
  end.

(** [s.slice(0, n)] and [s.slice(n)] for 0 <= n. *)
Fixpoint take (n : nat) (s : string) : string :=
  match n, s with
  | S k, String c r => String c (take k r)
  | _, _ => EmptyString
  end.

Fixpoint drop (n : nat) (s : string) : string :=
  match n, s with
  | S k, String _ r => drop k r
  | _, _ => s
  end.

(** [s.includes(p)] *)
Fixpoint includes (s p : string) : bool :=
  String.prefix p s ||
  match s with
  | EmptyString => false
  | String _ r => includes r p
  end.

(** Truthiness of an optional string: [undefined] and the empty string are
    falsy. *)
Definition truthy (o : option string) : bool :=
  match o with
  | Some s => negb (is_empty s)
  | None => false
  end.

(** [o || undefined] on a string. *)
Definition or_undefined (s : string) : option string :=
  if is_empty s then None else Some s.

End JS.

(* ================================================================== *)
(** * Regular expressions, as backtracking matchers

    A matcher reads a prefix of its input and hands the text it matched
    and the remaining input to a continuation; when the continuation
    fails the matcher tries its next alternative, in the order of a
    backtracking engine (greedy: longest first; lazy: shortest first). *)
(* ================================================================== *)

Module Re.

Section Matchers.
Context {A : Type}.

(** The continuation of a capturing matcher: matched text, then rest. *)
Definition kont := string -> string -> option A.

(** A literal prefix. *)
Fixpoint lit (p : string) (k : string -> option A) (s : string) : option A :=
  match p with
  | EmptyString => k s
  | String c p' =>
      match s with
      | String d s' => if Ascii.eqb d c then lit p' k s' else None
      | EmptyString => None
      end
  end.

(** A literal prefix under the flag i: only ASCII letters pair up, so the
    comparison is on lower-cased characters; [p] is given in lower case. *)
Fixpoint lit_ci (p : string) (k : kont) (s : string) : option A :=
  match p with
  | EmptyString => k EmptyString s
  | String c p' =>
      match s with
      | String d s' =>
          if Ascii.eqb (JS.lower_char d) c
          then lit_ci p' (fun m r => k (String d m) r) s'
          else None
      | EmptyString => None
      end
  end.

(** One character of a class. *)
Definition one (cls : ascii -> bool) (k : kont) (s : string) : option A :=
  match s with
  | String c r => if cls c then k (String c EmptyString) r else None
  | EmptyString => None
  end.

(** cls* (greedy) *)
Fixpoint star (cls : ascii -> bool) (k : kont) (s : string) : option A :=
  match s with
  | String c r =>
      if cls c then
        match star cls (fun m rest => k (String c m) rest) r with
        | Some a => Some a
        | None => k EmptyString s
        end
      else k EmptyString s
  | EmptyString => k EmptyString s
  end.

(** cls+ (greedy) *)
Definition plus (cls : ascii -> bool) (k : kont) (s : string) : option A :=
  match s with
  | String c r =>
      if cls c then star cls (fun m rest => k (String c m) rest) r else None
  | EmptyString => None
  end.

(** cls*? (lazy) *)
Fixpoint star_lazy (cls : ascii -> bool) (k : kont) (s : string) : option A :=
  match k EmptyString s with
  | Some a => Some a
  | None =>
      match s with
      | String c r =>
          if cls c then star_lazy cls (fun m rest => k (String c m) rest) r
          else None
      | EmptyString => None
      end
  end.

(** cls+? (lazy) *)
Definition plus_lazy (cls : ascii -> bool) (k : kont) (s : string) : option A :=
  match s with
  | String c r =>
      if cls c then star_lazy cls (fun m rest => k (String c m) rest) r
      else None
  | EmptyString => None
  end.

(** cls{0,n} (greedy) *)
Fixpoint upto (n : nat) (cls : ascii -> bool) (k : kont) (s : string) : option A :=
  match n with
  | O => k EmptyString s
  | S n' =>
      match s with
      | String c r =>
          if cls c then
            match upto n' cls (fun m rest => k (String c m) rest) r with
            | Some a => Some a
            | None => k EmptyString s
            end
          else k EmptyString s
      | EmptyString => k EmptyString s
      end
  end.

(** The anchor $ (no flag m): end of input. *)
Definition eos (a : A) (s : string) : option A :=
  if JS.is_empty s then Some a else None.

(** r1|r2 *)
Definition alt (r1 r2 : string -> option A) (s : string) : option A :=
  match r1 s with
  | Some a => Some a
  | None => r2 s
  end.
End Matchers.

(** [re.test(s)] for a pattern anchored at the start. *)
Definition test {A} (re : string -> option A) (s : string) : bool :=
  match re s with Some _ => true | None => false end.

(** [s.replace(re, '')] for a pattern anchored at the start, the matcher
    returning what follows the match. *)
Definition strip (re : string -> option string) (s : string) : string :=
  match re s with Some r => r | None => s end.

(** [s.replace(re, '')] for a pattern that may match anywhere: the leftmost
    match is removed. *)
Fixpoint strip_first (re : string -> option string) (s : string) : string :=
  match re s with
  | Some r => r
  | None =>
      match s with
      | String c r => String c (strip_first re r)
      | EmptyString => EmptyString
      end
  end.

(** The end of a match that captures nothing: keep the rest. *)
Definition rest_of : @kont string := fun _ r => Some r.

End Re.

(* ================================================================== *)
(** * The patterns of parser.ts *)
(* ================================================================== *)

Module Pat.
Import Re.

(** cls{n,} (greedy) *)
Fixpoint atleast {A} (n : nat) (cls : ascii -> bool) (k : @kont A) (s : string)
  : option A :=
  match n with
  | O => star cls k s
  | S n' =>
      match s with
      | String c r =>
          if cls c then atleast n' cls (fun m rest => k (String c m) rest) r
          else None
      | EmptyString => None
      end
  end.

Definition is_marker (c : ascii) : bool :=
  Ascii.eqb c "-" || Ascii.eqb c "*".

(** The double quote (code 34) and the single quote. *)
Definition is_quote (c : ascii) : bool :=
  Ascii.eqb c "034" || Ascii.eqb c "'".

(** /^-{3,}\s*$/ *)
Definition separator : string -> option unit :=
  atleast 3 (JS.is_char "-") (fun _ => star JS.is_space (fun _ => eos tt)).

(** /^```/ *)
Definition fence : string -> option string := lit "```" Some.

(** /^```\s*$/ *)
Definition fence_close : string -> option unit :=
  lit "```" (star JS.is_space (fun _ => eos tt)).

(** /^#\s+/ , /^##\s+/ , /^###\s+/ *)
Definition h1 : string -> option string := lit "#" (plus JS.is_space rest_of).
Definition h2 : string -> option string := lit "##" (plus JS.is_space rest_of).
Definition h3 : string -> option string := lit "###" (plus JS.is_space rest_of).

(** /^#{1,3}\s+/ *)
Definition h123 : string -> option string :=
  lit "#" (upto 2 (JS.is_char "#") (fun _ => plus JS.is_space rest_of)).

(** /^>\s+/ and /^>\s*/ *)
Definition quote : string -> option string := lit ">" (plus JS.is_space rest_of).
Definition quote0 : string -> option string := lit ">" (star JS.is_space rest_of).

(** /^[-*]\s+/ *)
Definition bullet : string -> option string :=
  one is_marker (fun _ => plus JS.is_space rest_of).

(** /^\s+[-*]\s+/ *)
Definition bullet_indented : string -> option string :=
  plus JS.is_space (fun _ => one is_marker (fun _ => plus JS.is_space rest_of)).

(** /^\s*[-*]\s+/ *)
Definition bullet_any : string -> option string :=
  star JS.is_space (fun _ => one is_marker (fun _ => plus JS.is_space rest_of)).

(** /^\d+\.\s+/ *)
Definition numbered : string -> option string :=
  plus JS.is_digit (fun _ => lit "." (plus JS.is_space rest_of)).

(** /^!\[/ and /^<!--/ *)
Definition image_open : string -> option string := lit "![" Some.
Definition comment_open : string -> option string := lit "<!--" Some.

(** /^!\[stock:\s*(.+?)\]\(([^)]* )\)/ : the groups 1 and 2.  (Here and
    below a blank follows a star that the source has right before a closing
    parenthesis.) *)
Definition stock : string -> option (string * string) :=
  lit "![stock:" (star JS.is_space (fun _ =>
    plus_lazy JS.is_dot (fun query =>
      lit "](" (star (JS.is_not ")") (fun orient =>
        lit ")" (fun _ => Some (query, orient))))))).

(** /^!\[ai-(photo|illustration|diagram):\s*(.+?)\]\(([^)]* )\)/ :
    the groups 1 and 2. *)
Definition ai_tail (style : string) : string -> option (string * string) :=
  lit ":" (star JS.is_space (fun _ =>
    plus_lazy JS.is_dot (fun prompt =>
      lit "](" (star (JS.is_not ")") (fun _ =>
        lit ")" (fun _ => Some (style, prompt))))))).

Definition ai : string -> option (string * string) :=
  lit "![ai-"
    (alt (lit "photo" (ai_tail "photo"))
      (alt (lit "illustration" (ai_tail "illustration"))
           (lit "diagram" (ai_tail "diagram")))).

(** /^!\[([^\]]* )\]\(([^)]* )\)/ : the groups 1 and 2. *)
Definition image : string -> option (string * string) :=
  lit "![" (star (JS.is_not "]") (fun alt_text =>
    lit "](" (star (JS.is_not ")") (fun src =>
      lit ")" (fun _ => Some (alt_text, src)))))).

(** /<!--\s*notes:\s*/ and /<!--\s*bg:\s*/ and /\s*-->/ , tried at one
    position; [strip_first] looks for the leftmost one. *)
Definition notes_open : string -> option string :=
  lit "<!--" (star JS.is_space (fun _ => lit "notes:" (star JS.is_space rest_of))).
Definition bg_open : string -> option string :=
  lit "<!--" (star JS.is_space (fun _ => lit "bg:" (star JS.is_space rest_of))).
Definition comment_close : string -> option string :=
  star JS.is_space (fun _ => lit "-->" Some).

(** /^type:\s*(bar|pie|line)$/i : the group 1. *)
Definition chart_type : string -> option string :=
  lit_ci "type:" (fun _ => star JS.is_space (fun _ =>
    alt (lit_ci "bar" (fun m => eos m))
      (alt (lit_ci "pie" (fun m => eos m))
           (lit_ci "line" (fun m => eos m))))).

(** /^title:\s*(.+)$/i : the group 1. *)
Definition chart_title : string -> option string :=
  lit_ci "title:" (fun _ => star JS.is_space (fun _ =>
    plus JS.is_dot (fun m => eos m))).

(** /^(.+?):\s*(\d+(?:\.\d+)?)$/ : the group 1, and the group 2 as its
    integer digits and its optional fraction digits. *)
Definition chart_data : string -> option (string * (string * option string)) :=
  plus_lazy JS.is_dot (fun label =>
    lit ":" (star JS.is_space (fun _ =>
      plus JS.is_digit (fun ip =>
        alt (lit "." (plus JS.is_digit (fun fp => eos (label, (ip, Some fp)))))
            (eos (label, (ip, None))))))).

(** /^center:\s*(.+)$/i : the group 1. *)
Definition center : string -> option string :=
  lit_ci "center:" (fun _ => star JS.is_space (fun _ =>
    plus JS.is_dot (fun m => eos m))).

(** /^-\s+(.+)$/ : the group 1. *)
Definition branch : string -> option string :=
  lit "-" (plus JS.is_space (fun _ => plus JS.is_dot (fun m => eos m))).

(** /^\s{2,}-\s+(.+)$/ : the group 1. *)
Definition child : string -> option string :=
  atleast 2 JS.is_space (fun _ =>
    lit "-" (plus JS.is_space (fun _ => plus JS.is_dot (fun m => eos m)))).

(** [s.replace(/^["']|["']$/g, '')]: a quote at the start goes, and a quote
    at the end of what is left goes. *)
Fixpoint strip_last_quote (s : string) : string :=
  match s with
  | EmptyString => EmptyString
  | String c EmptyString => if is_quote c then EmptyString else s
  | String c r => String c (strip_last_quote r)
  end.

Definition strip_quotes (s : string) : string :=
  match s with
  | String c r => if is_quote c then strip_last_quote r else strip_last_quote s
  | EmptyString => EmptyString
  end.

End Pat.

(* ================================================================== *)
(** * Data model (src/types.ts) *)
(* ================================================================== *)

Inductive AspectRatio := Ratio_16_9 | Ratio_4_3.

Module Meta.
Record t := mk {
  title : option string;
  author : option string;
  date : option string;
  theme : option string;
  aspectRatio : AspectRatio;
  accentColor : option string;
  fontFamily : option string;
  style : option string
}.

Definition set_title v m :=
  mk (Some v) (author m) (date m) (theme m) (aspectRatio m) (accentColor m)
     (fontFamily m) (style m).
Definition set_author v m :=
  mk (title m) (Some v) (date m) (theme m) (aspectRatio m) (accentColor m)
     (fontFamily m) (style m).
Definition set_date v m :=
  mk (title m) (author m) (Some v) (theme m) (aspectRatio m) (accentColor m)
     (fontFamily m) (style m).
Definition set_theme v m :=
  mk (title m) (author m) (date m) (Some v) (aspectRatio m) (accentColor m)
     (fontFamily m) (style m).
Definition set_aspectRatio v m :=
  mk (title m) (author m) (date m) (theme m) v (accentColor m)
     (fontFamily m) (style m).
Definition set_accentColor v m :=
  mk (title m) (author m) (date m) (theme m) (aspectRatio m) (Some v)
     (fontFamily m) (style m).
Definition set_fontFamily v m :=
  mk (title m) (author m) (date m) (theme m) (aspectRatio m) (accentColor m)
     (Some v) (style m).
Definition set_style v m :=
  mk (title m) (author m) (date m) (theme m) (aspectRatio m) (accentColor m)
     (fontFamily m) (Some v).
End Meta.

Inductive ChartType := Bar | Pie | Line.

Module ChartItem.
Record t := mk { label : string; value : Q }.
End ChartItem.

Module ChartData.
Record t := mk {
  type : ChartType;
  title : option string;
  items : list ChartItem.t
}.
End ChartData.

Module Branch.
Record t := mk { label : string; children : option (list string) }.
End Branch.

Module MindMapData.
Record t := mk { center : string; branches : list Branch.t }.
End MindMapData.

Inductive ContentBlockType :=
  | Heading | Subheading | Text | Bullets | Numbered | Image | Code | Quote
  | Chart | Mindmap | StockImage | AiImage.

Inductive SlideLayout :=
  | LTitle | LSection | LContent | LTwoColumn | LImageFull | LBlank.

Module Block.
(** ContentBlock; [resolvedSrc] is never written by the parser. *)
Record t := mk {
  type : ContentBlockType;
  content : string;
  items : option (list string);
  level : option nat;
  language : option string;
  alt : option string;
  src : option string;
  chartData : option ChartData.t;
  mindmapData : option MindMapData.t;
  imageQuery : option string;
  imageStyle : option string
}.

(** An object literal that sets [type] and [content] only. *)
Definition plain (ty : ContentBlockType) (c : string) : t :=
  mk ty c None None None None None None None None None.
End Block.

Module Slide.
Record t := mk {
  layout : SlideLayout;
  title : option string;
  subtitle : option string;
  blocks : list Block.t;
  notes : option string;
  background : option string
}.
End Slide.

Module Presentation.
Record t := mk { meta : Meta.t; slides : list Slide.t }.
End Presentation.

(* ================================================================== *)
(** * The parser (src/parser.ts) *)
(* ================================================================== *)

(** The one-character string holding LF. *)
Definition nl : string := String "010" EmptyString.

Definition isSome {A} (o : option A) : bool :=
  match o with Some _ => true | None => false end.

(** [lines[i]] for an index in range. *)
Definition line_at (lines : list string) (i : nat) : string :=
  nth i lines EmptyString.

(** ** Frontmatter *)

Definition default_meta : Meta.t :=
  Meta.mk None None None None Ratio_16_9 None None None.

(** The body of the loop over the interior lines of the frontmatter. *)
Definition frontmatterLine (meta : Meta.t) (raw : string) : Meta.t :=
  let line := JS.trim raw in
  if JS.is_empty line || JS.startsWith line "#" then meta
  else
    match JS.indexOf ":" line with
    | None => meta
    | Some colonIdx =>
        let key := JS.toLowerCase (JS.trim (JS.take colonIdx line)) in
        let value := Pat.strip_quotes (JS.trim (JS.drop (colonIdx + 1) line)) in
        if key =? "title" then Meta.set_title value meta
        else if key =? "author" then Meta.set_author value meta
        else if key =? "date" then Meta.set_date value meta
        else if key =? "theme" then Meta.set_theme value meta
        else if (key =? "aspect-ratio") || (key =? "aspectratio") then
          if value =? "4:3" then Meta.set_aspectRatio Ratio_4_3 meta
          else if value =? "16:9" then Meta.set_aspectRatio Ratio_16_9 meta
          else meta
        else if (key =? "accent-color") || (key =? "accentcolor")
                || (key =? "color") then Meta.set_accentColor value meta
        else if (key =? "font") || (key =? "font-family")
                || (key =? "fontfamily") then Meta.set_fontFamily value meta
        else if key =? "style" then Meta.set_style value meta
        else meta
    end%string.

(** The search for the closing rule: the first index from [i] on whose
    trimmed line is exactly three dashes. *)
Fixpoint find_closing (ls : list string) (i : nat) : option nat :=
  match ls with
  | [] => None
  | l :: rest =>
      if (JS.trim l =? "---")%string then Some i else find_closing rest (S i)
  end.

Definition parseFrontmatter (lines : list string) : Meta.t * nat :=
  if (List.length lines <? 2) || negb (JS.trim (line_at lines 0) =? "---")%string
  then (default_meta, 0)
  else
    match find_closing (skipn 1 lines) 1 with
    | None => (default_meta, 0)
    | Some endIndex =>
        (fold_left frontmatterLine (firstn (endIndex - 1) (skipn 1 lines))
           default_meta,
         endIndex + 1)
    end.

(** ** Slide splitting *)

Fixpoint count_fences (lines : list string) : nat :=
  match lines with
  | [] => 0
  | l :: rest =>
      if Re.test Pat.fence (JS.trim l) then S (count_fences rest)
      else count_fences rest
  end.

Definition isInsideCodeBlock (lines : list string) : bool :=
  Nat.odd (count_fences lines).

Module Split.
Record t := mk { chunks : list (list string); current : list string }.
Definition init : t := mk [] [].
End Split.

(** The body of the loop of [splitIntoSlides]. *)
Definition split_step (st : Split.t) (line : string) : Split.t :=
  if Re.test Pat.separator line && negb (isInsideCodeBlock (Split.current st))
  then
    if (0 <? List.length (Split.current st)) || (List.length (Split.chunks st) =? 0)
    then Split.mk (Split.chunks st ++ [Split.current st]) []
    else st
  else Split.mk (Split.chunks st) (Split.current st ++ [line]).

(** The chunks before the final filter. *)
Definition segment (lines : list string) (startIndex : nat) : list (list string) :=
  let st := fold_left split_step (skipn startIndex lines) Split.init in
  if 0 <? List.length (Split.current st)
  then Split.chunks st ++ [Split.current st]
  else Split.chunks st.

(** [chunk.some(line => line.trim() !== '')] *)
Definition has_content (chunk : list string) : bool :=
  existsb (fun line => negb (JS.is_empty (JS.trim line))) chunk.

Definition splitIntoSlides (lines : list string) (startIndex : nat)
  : list (list string) :=
  filter has_content (segment lines startIndex).

(** ** Chart and mind-map mini-languages *)

(** The value of a run of decimal digits. *)
Fixpoint digits_value (s : string) (acc : N) : N :=
  match s with
  | EmptyString => acc
  | String c r => digits_value r (10 * acc + (JS.code c - 48))%N
  end.

(** [parseFloat] on digits with an optional fraction: the source gets the
    double nearest to the decimal, the embedding keeps the decimal itself, as
    the rational (digits without the point) / 10^(number of fraction digits). *)
Definition parseFloat (ip : string) (fp : option string) : Q :=
  match fp with
  | None => Z.of_N (digits_value ip 0) # 1
  | Some f =>
      Z.of_N (digits_value (ip ++ f)%string 0) # Pos.pow 10 (Pos.of_nat (String.length f))
  end.

(** The cast of the lower-cased group 1 of the type pattern, which admits
    these three words only. *)
Definition chartType_of (s : string) : option ChartType :=
  if (s =? "bar")%string then Some Bar
  else if (s =? "pie")%string then Some Pie
  else if (s =? "line")%string then Some Line
  else None.

(** The body of the loop of [parseChartData]. *)
Definition chartLine (st : ChartData.t) (line : string) : ChartData.t :=
  let trimmed := JS.trim line in
  if JS.is_empty trimmed then st
  else
    match Pat.chart_type trimmed with
    | Some m =>
        match chartType_of (JS.toLowerCase m) with
        | Some k => ChartData.mk k (ChartData.title st) (ChartData.items st)
        | None => st
        end
    | None =>
        match Pat.chart_title trimmed with
        | Some m =>
            ChartData.mk (ChartData.type st) (Some (JS.trim m)) (ChartData.items st)
        | None =>
            match Pat.chart_data trimmed with
            | Some (lbl, (ip, fp)) =>
                ChartData.mk (ChartData.type st) (ChartData.title st)
                  (ChartData.items st
                     ++ [ChartItem.mk (JS.trim lbl) (parseFloat ip fp)])
            | None => st
            end
        end
    end.

Definition parseChartData (lines : list string) : ChartData.t :=
  fold_left chartLine lines (ChartData.mk Bar None []).

(** [lastBranch.children.push(c)], the child list created when absent. *)
Fixpoint push_child (c : string) (bs : list Branch.t) : list Branch.t :=
  match bs with
  | [] => []
  | [b] =>
      [Branch.mk (Branch.label b)
         (Some (match Branch.children b with Some cs => cs | None => [] end
                ++ [c]))]
  | b :: rest => b :: push_child c rest
  end.

(** The body of the loop of [parseMindMapData]. *)
Definition mindMapLine (st : MindMapData.t) (line : string) : MindMapData.t :=
  let trimmed := JS.trim line in
  if JS.is_empty trimmed then st
  else
    match Pat.center trimmed with
    | Some m => MindMapData.mk (JS.trim m) (MindMapData.branches st)
    | None =>
        match Pat.branch line with
        | Some m =>
            MindMapData.mk (MindMapData.center st)
              (MindMapData.branches st ++ [Branch.mk (JS.trim m) (Some [])])
        | None =>
            match Pat.child line with
            | Some m =>
                if 0 <? List.length (MindMapData.branches st)
                then MindMapData.mk (MindMapData.center st)
                       (push_child (JS.trim m) (MindMapData.branches st))
                else st
            | None => st
            end
        end
    end.

Definition parseMindMapData (lines : list string) : MindMapData.t :=
  fold_left mindMapLine lines (MindMapData.mk "Topic" []).

(** The loop shared by [parseChartBlock] and [parseMindMapBlock]: the lines
    up to a closing fence, and the index where the loop stops. *)
Fixpoint fenced_lines (ls : list string) (acc : list string) (i : nat)
  : list string * nat :=
  match ls with
  | [] => (acc, i)
  | l :: rest =>
      if Re.test Pat.fence_close (JS.trim l) then (acc, i)
      else fenced_lines rest (acc ++ [l]) (S i)
  end.

Definition parseChartBlock (lines : list string) (startIndex : nat)
  : Block.t * Z :=
  let '(dataLines, i) := fenced_lines (skipn (startIndex + 1) lines) [] (startIndex + 1) in
  (Block.mk Chart (JS.join nl dataLines) None None None None None
     (Some (parseChartData dataLines)) None None None,
   Z.of_nat i).

Definition parseMindMapBlock (lines : list string) (startIndex : nat)
  : Block.t * Z :=
  let '(dataLines, i) := fenced_lines (skipn (startIndex + 1) lines) [] (startIndex + 1) in
  (Block.mk Mindmap (JS.join nl dataLines) None None None None None
     None (Some (parseMindMapData dataLines)) None None,
   Z.of_nat i).

(** ** Content sub-parsers

    Each one takes the lines of the chunk and the index where it starts and
    returns its block and [endIndex], the index of the last line it used.
    The loops run over the lines from their start index on and carry the
    index along. *)

Fixpoint notes_loop (ls : list string) (text : string) (i : nat) : string * Z :=
  match ls with
  | [] => (JS.trim text, Z.of_nat i - 1)%Z
  | l :: rest =>
      let line := JS.trim l in
      if JS.includes line "-->" then
        (JS.trim (text ++ nl ++ JS.trim (Re.strip_first Pat.comment_close line))%string,
         Z.of_nat i)
      else notes_loop rest (text ++ nl ++ line)%string (S i)
  end.

Definition extractNotes (lines : list string) (startIndex : nat) : string * Z :=
  let singleLine := JS.trim (line_at lines startIndex) in
  if JS.includes singleLine "-->" then
    (JS.trim (Re.strip_first Pat.comment_close
                (Re.strip_first Pat.notes_open singleLine)),
     Z.of_nat startIndex)
  else
    notes_loop (skipn (startIndex + 1) lines)
      (JS.trim (Re.strip_first Pat.notes_open singleLine)) (startIndex + 1).

Fixpoint code_loop (ls : list string) (codeLines : list string) (i : nat)
  : list string * Z :=
  match ls with
  | [] => (codeLines, Z.of_nat i - 1)%Z
  | l :: rest =>
      if Re.test Pat.fence_close (JS.trim l) then (codeLines, Z.of_nat i)
      else code_loop rest (codeLines ++ [l]) (S i)
  end.

Definition parseCodeBlock (lines : list string) (startIndex : nat) : Block.t * Z :=
  let firstLine := JS.trim (line_at lines startIndex) in
  let language := JS.or_undefined (JS.trim (Re.strip Pat.fence firstLine)) in
  let '(codeLines, endIndex) :=
    code_loop (skipn (startIndex + 1) lines) [] (startIndex + 1) in
  (Block.mk Code (JS.join nl codeLines) None None language None None None None
     None None,
   endIndex).

Fixpoint quote_loop (ls : list string) (quoteLines : list string) (i : nat)
  : list string * nat :=
  match ls with
  | [] => (quoteLines, i)
  | l :: rest =>
      if Re.test Pat.quote0 (JS.trim l)
      then quote_loop rest (quoteLines ++ [Re.strip Pat.quote0 (JS.trim l)]) (S i)
      else (quoteLines, i)
  end.

Definition parseBlockquote (lines : list string) (startIndex : nat) : Block.t * Z :=
  let '(quoteLines, i) := quote_loop (skipn startIndex lines) [] startIndex in
  (Block.plain Quote (JS.join nl quoteLines), (Z.of_nat i - 1)%Z).

(** [i + 1 < lines.length && re.test(f(lines[i + 1]))] *)
Definition next_is (p : string -> bool) (rest : list string) : bool :=
  match rest with
  | l :: _ => p l
  | [] => false
  end.

Fixpoint bullet_loop (ls : list string) (items : list string) (i : nat)
  : list string * nat :=
  match ls with
  | [] => (items, i)
  | l :: rest =>
      let trimmed := JS.trim l in
      if Re.test Pat.bullet trimmed then
        bullet_loop rest (items ++ [Re.strip Pat.bullet trimmed]) (S i)
      else if Re.test Pat.bullet_indented l && (0 <? List.length items) then
        bullet_loop rest
          (items ++ [("  " ++ Re.strip Pat.bullet (JS.trim l))%string]) (S i)
      else if JS.is_empty trimmed && next_is (Re.test Pat.bullet_any) rest then
        bullet_loop rest items (S i)
      else (items, i)
  end.

Definition parseBulletList (lines : list string) (startIndex : nat) : Block.t * Z :=
  let '(items, i) := bullet_loop (skipn startIndex lines) [] startIndex in
  (Block.mk Bullets (JS.join nl items) (Some items) None None None None None
     None None None,
   (Z.of_nat i - 1)%Z).

Fixpoint numbered_loop (ls : list string) (items : list string) (i : nat)
  : list string * nat :=
  match ls with
  | [] => (items, i)
  | l :: rest =>
      let trimmed := JS.trim l in
      if Re.test Pat.numbered trimmed then
        numbered_loop rest (items ++ [Re.strip Pat.numbered trimmed]) (S i)
      else if JS.is_empty trimmed
              && next_is (fun n => Re.test Pat.numbered (JS.trim n)) rest then
        numbered_loop rest items (S i)
      else (items, i)
  end.

Definition parseNumberedList (lines : list string) (startIndex : nat) : Block.t * Z :=
  let '(items, i) := numbered_loop (skipn startIndex lines) [] startIndex in
  (Block.mk Numbered (JS.join nl items) (Some items) None None None None None
     None None None,
   (Z.of_nat i - 1)%Z).

(** The lines at which a paragraph stops. *)
Definition paragraph_break (trimmed : string) : bool :=
  JS.is_empty trimmed
  || Re.test Pat.h123 trimmed
  || Re.test Pat.bullet trimmed
  || Re.test Pat.numbered trimmed
  || Re.test Pat.fence trimmed
  || Re.test Pat.quote trimmed
  || Re.test Pat.image_open trimmed
  || Re.test Pat.comment_open trimmed
  || Re.test Pat.separator trimmed.

Fixpoint paragraph_loop (ls : list string) (paraLines : list string) (i : nat)
  : list string * nat :=
  match ls with
  | [] => (paraLines, i)
  | l :: rest =>
      let trimmed := JS.trim l in
      if paragraph_break trimmed then (paraLines, i)
      else paragraph_loop rest (paraLines ++ [trimmed]) (S i)
  end.

Definition parseParagraph (lines : list string) (startIndex : nat) : Block.t * Z :=
  let '(paraLines, i) := paragraph_loop (skipn startIndex lines) [] startIndex in
  (Block.plain Text (JS.join " " paraLines), (Z.of_nat i - 1)%Z).

(** ** Layout inference *)

Definition hasOnlyImageBlock (blocks : list Block.t) : bool :=
  match blocks with
  | [b] => match Block.type b with Image => true | _ => false end
  | _ => false
  end.

Definition inferLayout (title subtitle : option string) (blocks : list Block.t)
  (isFirstSlide : bool) : SlideLayout :=
  if hasOnlyImageBlock blocks && negb (JS.truthy title) then LImageFull
  else if isFirstSlide && (List.length blocks =? 0) then LTitle
  else if JS.truthy title && (List.length blocks =? 0) then LSection
  else LContent.

(** ** Slide parsing *)

(** The variables of [parseSlide]: the cursor and what was collected. *)
Module Cursor.
Record t := mk {
  i : nat;
  blocks : list Block.t;
  title : option string;
  subtitle : option string;
  notes : option string;
  background : option string
}.

Definition goto (n : nat) (st : t) : t :=
  mk n (blocks st) (title st) (subtitle st) (notes st) (background st).
Definition next (st : t) : t := goto (i st + 1) st.
Definition push (b : Block.t) (st : t) : t :=
  mk (i st) (blocks st ++ [b]) (title st) (subtitle st) (notes st) (background st).
Definition set_title (v : string) (st : t) : t :=
  mk (i st) (blocks st) (Some v) (subtitle st) (notes st) (background st).
Definition set_subtitle (v : string) (st : t) : t :=
  mk (i st) (blocks st) (title st) (Some v) (notes st) (background st).
Definition set_notes (v : string) (st : t) : t :=
  mk (i st) (blocks st) (title st) (subtitle st) (Some v) (background st).
Definition set_background (v : string) (st : t) : t :=
  mk (i st) (blocks st) (title st) (subtitle st) (notes st) (Some v).
End Cursor.

(** [i = result.endIndex + 1] after [blocks.push(result.block)]. *)
Definition consume (r : Block.t * Z) (st : Cursor.t) : Cursor.t :=
  Cursor.goto (Z.to_nat (snd r + 1)) (Cursor.push (fst r) st).

(** The dispatch on the language of an opening fence. *)
Definition dispatchFence (lines : list string) (trimmed : string) (st : Cursor.t)
  : Cursor.t :=
  let lang := JS.toLowerCase (JS.trim (Re.strip Pat.fence trimmed)) in
  if (lang =? "chart")%string then consume (parseChartBlock lines (Cursor.i st)) st
  else if (lang =? "mindmap")%string
  then consume (parseMindMapBlock lines (Cursor.i st)) st
  else consume (parseCodeBlock lines (Cursor.i st)) st.

(** The image directives, the block quote, the lists and the paragraph:
    the last rules of the dispatch. *)
Definition dispatchContent (lines : list string) (trimmed : string)
  (st : Cursor.t) : Cursor.t :=
  match Pat.stock trimmed with
  | Some (query, orient) =>
      Cursor.next
        (Cursor.push
           (Block.mk StockImage query None None None (Some query)
              (JS.or_undefined orient) None None (Some query) None) st)
  | None =>
  match Pat.ai trimmed with
  | Some (style, prompt) =>
      Cursor.next
        (Cursor.push
           (Block.mk AiImage prompt None None None (Some prompt) None None None
              None (Some style)) st)
  | None =>
  match Pat.image trimmed with
  | Some (alt_text, src) =>
      Cursor.next
        (Cursor.push
           (Block.mk Image src None None None (Some alt_text)
              (JS.or_undefined src) None None None None) st)
  | None =>
      if Re.test Pat.quote trimmed
      then consume (parseBlockquote lines (Cursor.i st)) st
      else if Re.test Pat.bullet trimmed
      then consume (parseBulletList lines (Cursor.i st)) st
      else if Re.test Pat.numbered trimmed
      then consume (parseNumberedList lines (Cursor.i st)) st
      else consume (parseParagraph lines (Cursor.i st)) st
  end end end.

(** One turn of the main loop of [parseSlide], for a cursor inside the
    chunk. *)
Definition dispatch (lines : list string) (st : Cursor.t) : Cursor.t :=
  let line := line_at lines (Cursor.i st) in
  let trimmed := JS.trim line in
  if JS.is_empty trimmed then Cursor.next st
  else if JS.startsWith trimmed "<!-- notes:" || JS.startsWith trimmed "<!--notes:"
  then
    let noteContent := extractNotes lines (Cursor.i st) in
    Cursor.goto (Z.to_nat (snd noteContent + 1))
      (Cursor.set_notes (fst noteContent) st)
  else if JS.startsWith trimmed "<!-- bg:" || JS.startsWith trimmed "<!--bg:"
  then
    Cursor.next
      (Cursor.set_background
         (JS.trim (Re.strip_first Pat.comment_close
                     (Re.strip_first Pat.bg_open trimmed))) st)
  else if Re.test Pat.h1 trimmed && negb (JS.truthy (Cursor.title st))
  then Cursor.next (Cursor.set_title (Re.strip Pat.h1 trimmed) st)
  else if Re.test Pat.h1 trimmed && JS.truthy (Cursor.title st)
  then
    Cursor.next
      (Cursor.push
         (Block.mk Heading (Re.strip Pat.h1 trimmed) None (Some 1) None None
            None None None None None) st)
  else if Re.test Pat.h2 trimmed
  then
    let text := Re.strip Pat.h2 trimmed in
    Cursor.next
      (if negb (JS.truthy (Cursor.title st)) then Cursor.set_title text st
       else if negb (JS.truthy (Cursor.subtitle st)) then Cursor.set_subtitle text st
       else Cursor.push
              (Block.mk Subheading text None (Some 2) None None None None None
                 None None) st)
  else if Re.test Pat.h3 trimmed
  then
    Cursor.next
      (Cursor.push
         (Block.mk Subheading (Re.strip Pat.h3 trimmed) None (Some 3) None None
            None None None None None) st)
  else if Re.test Pat.fence trimmed then dispatchFence lines trimmed st
  else dispatchContent lines trimmed st.

(** The main loop of [parseSlide].  A turn may leave the cursor where it
    was, so the loop is run on fuel: [None] when the fuel is used up with
    the cursor still inside the chunk. *)
Fixpoint slide_loop (fuel : nat) (lines : list string) (st : Cursor.t)
  : option Cursor.t :=
  if Cursor.i st <? List.length lines then
    match fuel with
    | O => None
    | S fuel' => slide_loop fuel' lines (dispatch lines st)
    end
  else Some st.

(** [while (i < lines.length && lines[i].trim() === '') i++] from 0. *)
Fixpoint skip_blank (ls : list string) (i : nat) : nat :=
  match ls with
  | l :: rest => if JS.is_empty (JS.trim l) then skip_blank rest (S i) else i
  | [] => i
  end.

Definition parseSlide (fuel : nat) (lines : list string) (isFirstSlide : bool)
  : option Slide.t :=
  let st0 := Cursor.mk (skip_blank lines 0) [] None None None None in
  match slide_loop fuel lines st0 with
  | None => None
  | Some st =>
      let layout :=
        inferLayout (Cursor.title st) (Cursor.subtitle st) (Cursor.blocks st)
          isFirstSlide in
      Some (Slide.mk layout (Cursor.title st) (Cursor.subtitle st)
              (Cursor.blocks st) (Cursor.notes st) (Cursor.background st))
  end.

(** ** Assembly *)

Definition hasFrontmatterTitle (meta : Meta.t) : bool :=
  JS.truthy (Meta.title meta).

(** [slideChunks.map((chunk, i) => parseSlide(chunk, i === 0 && ...))],
    the chunks taken in order from index [i]. *)
Fixpoint parseSlides (fuel : nat) (chunks : list (list string)) (i : nat)
  (meta : Meta.t) : option (list Slide.t) :=
  match chunks with
  | [] => Some []
  | chunk :: rest =>
      match parseSlide fuel chunk ((i =? 0) && negb (hasFrontmatterTitle meta)) with
      | None => None
      | Some s =>
          match parseSlides fuel rest (S i) meta with
          | None => None
          | Some ss => Some (s :: ss)
          end
      end
  end.

(** The title back-fill on the metadata. *)
Definition backfill (meta : Meta.t) (slides : list Slide.t) : Meta.t :=
  match slides with
  | s :: _ =>
      if negb (JS.truthy (Meta.title meta)) && JS.truthy (Slide.title s)
      then match Slide.title s with
           | Some t => Meta.set_title t meta
           | None => meta
           end
      else meta
  | [] => meta
  end.

Definition parse (fuel : nat) (input : string) : option Presentation.t :=
  let lines := JS.split "010" input in
  let '(meta, bodyStart) := parseFrontmatter lines in
  let slideChunks := splitIntoSlides lines bodyStart in
  match parseSlides fuel slideChunks 0 meta with
  | None => None
  | Some slides => Some (Presentation.mk (backfill meta slides) slides)
  end.

(** A source text written on several lines. *)
Definition text (lines : list string) : string := JS.join nl lines.


(* ================================================================== *)
(** * Facts about strings and matchers *)
(* ================================================================== *)

(** Every character of the string is in the class. *)
Fixpoint all (cls : ascii -> bool) (s : string) : bool :=
  match s with
  | EmptyString => true
  | String c r => cls c && all cls r
  end.

(** The string is empty or starts outside the class. *)
Definition stops (cls : ascii -> bool) (s : string) : bool :=
  match s with
  | EmptyString => true
  | String c _ => negb (cls c)
  end.

Section MatcherFacts.
Context {A : Type}.
Implicit Types (k : @Re.kont A) (s m r : string).

Lemma lit_app p (k' : string -> option A) s :
  Re.lit p k' (p ++ s)%string = k' s.
Proof.
  induction p as [|c p IH]; simpl; [reflexivity|].
  now rewrite Ascii.eqb_refl.
Qed.

Lemma lit_some p (k' : string -> option A) s a :
  Re.lit p k' s = Some a -> exists r, s = (p ++ r)%string /\ k' r = Some a.
Proof.
  revert s; induction p as [|c p IH]; simpl; intros s H.
  - now exists s.
  - destruct s as [|d s]; [discriminate|].
    destruct (Ascii.eqb_spec d c) as [->|]; [|discriminate].
    destruct (IH _ H) as (r & -> & Hr). now exists r.
Qed.

(** The greedy star succeeds with its longest run when the continuation
    accepts it. *)
Lemma star_hit cls k m r a :
  all cls m = true -> stops cls r = true -> k m r = Some a ->
  Re.star cls k (m ++ r)%string = Some a.
Proof.
  revert k; induction m as [|c m IH]; simpl; intros k Hm Hr Hk.
  - destruct r as [|d r]; simpl in *; [assumption|].
    apply negb_true_iff in Hr. now rewrite Hr.
  - apply andb_true_iff in Hm as [Hc Hm]. rewrite Hc.
    now rewrite (IH (fun m' rest => k (String c m') rest) Hm Hr Hk).
Qed.

(** Whatever the star returns comes from the continuation, on a split of
    the input after a run of the class. *)
Lemma star_some cls k s a :
  Re.star cls k s = Some a ->
  exists m r, s = (m ++ r)%string /\ all cls m = true /\ k m r = Some a.
Proof.
  revert k; induction s as [|c s IH]; simpl; intros k H.
  - now exists EmptyString, EmptyString.
  - destruct (cls c) eqn:Hc.
    + destruct (Re.star cls (fun m rest => k (String c m) rest) s) eqn:E.
      * injection H as <-. destruct (IH _ E) as (m & r & -> & Hm & Hk).
        exists (String c m), r. simpl. now rewrite Hc, Hm.
      * now exists EmptyString, (String c s).
    + now exists EmptyString, (String c s).
Qed.

(** The star fails when the continuation refuses every split. *)
Lemma star_none cls k s :
  (forall m r, s = (m ++ r)%string -> all cls m = true -> k m r = None) ->
  Re.star cls k s = None.
Proof.
  intros H. destruct (Re.star cls k s) as [a|] eqn:E; [|reflexivity].
  destruct (star_some _ _ _ _ E) as (m & r & -> & Hm & Hk).
  now rewrite (H m r eq_refl Hm) in Hk.
Qed.

Lemma plus_hit cls k c m r a :
  cls c = true -> all cls m = true -> stops cls r = true ->
  k (String c m) r = Some a ->
  Re.plus cls k (String c (m ++ r))%string = Some a.
Proof.
  intros Hc Hm Hr Hk. unfold Re.plus. rewrite Hc.
  now apply (star_hit cls (fun m' rest => k (String c m') rest)).
Qed.

Lemma plus_some cls k s a :
  Re.plus cls k s = Some a ->
  exists c m r, s = String c (m ++ r)%string /\ cls c = true
                /\ all cls m = true /\ k (String c m) r = Some a.
Proof.
  unfold Re.plus. destruct s as [|c s]; [discriminate|].
  destruct (cls c) eqn:Hc; [|discriminate]. intros H.
  destruct (star_some _ _ _ _ H) as (m & r & -> & Hm & Hk).
  now exists c, m, r.
Qed.
End MatcherFacts.

Lemma all_app cls a b :
  all cls (a ++ b)%string = all cls a && all cls b.
Proof.
  induction a as [|c a IH]; simpl; [reflexivity|].
  now rewrite IH, andb_assoc.
Qed.

Lemma is_empty_true s : JS.is_empty s = true -> s = EmptyString.
Proof. now destruct s. Qed.

(** ** The separator pattern, read as a predicate on the line *)

Fixpoint count_dashes (s : string) : nat :=
  match s with
  | String c r => if JS.is_char "-" c then S (count_dashes r) else 0
  | EmptyString => 0
  end.

Fixpoint drop_dashes (s : string) : string :=
  match s with
  | String c r => if JS.is_char "-" c then drop_dashes r else s
  | EmptyString => EmptyString
  end.

(** Three or more dashes, then white space only, up to the end of the line. *)
Definition rule_line (line : string) : bool :=
  (3 <=? count_dashes line) && all JS.is_space (drop_dashes line).


Lemma spaces_to_end s :
  Re.test (Re.star JS.is_space (fun _ => Re.eos tt)) s = all JS.is_space s.
Proof.
  unfold Re.test. induction s as [|c s IH]; simpl; [reflexivity|].
  destruct (JS.is_space c); simpl; [|reflexivity].
  change (fun (m : string) rest => Re.eos tt rest)
    with (fun _ : string => @Re.eos unit tt).
  destruct (Re.star JS.is_space (fun _ => Re.eos tt) s);
    destruct (all JS.is_space s); try discriminate; reflexivity.
Qed.

Lemma dashes_then_spaces s :
  Re.test (Re.star (JS.is_char "-")
             (fun _ => Re.star JS.is_space (fun _ => Re.eos tt))) s
  = all JS.is_space (drop_dashes s).
Proof.
  induction s as [|c s IH]; [reflexivity|].
  unfold Re.test in *. cbn [Re.star drop_dashes].
  destruct (JS.is_char "-" c) eqn:Hc.
  - change (fun (m : string) rest =>
              Re.star JS.is_space (fun _ : string => Re.eos tt) rest)
      with (fun _ : string =>
              Re.star JS.is_space (fun _ : string => @Re.eos unit tt)).
    destruct (Re.star (JS.is_char "-") _ s) eqn:E; [exact IH|].
    rewrite <- IH.
    apply Ascii.eqb_eq in Hc; subst c. reflexivity.
  - apply (spaces_to_end (String c s)).
Qed.

Lemma separator_rule_line line :
  Re.test Pat.separator line = rule_line line.
Proof.
  unfold rule_line, Pat.separator.
  destruct line as [|c1 [|c2 [|c3 s]]]; cbn [Pat.atleast count_dashes drop_dashes];
    unfold Re.test in *.
  - reflexivity.
  - now destruct (JS.is_char "-" c1).
  - now destruct (JS.is_char "-" c1), (JS.is_char "-" c2).
  - destruct (JS.is_char "-" c1); [|reflexivity].
    destruct (JS.is_char "-" c2); [|reflexivity].
    destruct (JS.is_char "-" c3); [|reflexivity].
    exact (dashes_then_spaces s).
Qed.

(* ================================================================== *)
(** * Slide segmentation *)
(* ================================================================== *)

Lemma count_fences_app a b :
  count_fences (a ++ b) = count_fences a + count_fences b.
Proof.
  induction a as [|l a IH]; simpl; [reflexivity|].
  destruct (Re.test Pat.fence (JS.trim l)); simpl; now rewrite IH.
Qed.

Lemma separator_not_fence line :
  Re.test Pat.separator line = true -> Re.test Pat.fence (JS.trim line) = false.
Proof.
  destruct line as [|c s]; [discriminate|].
  unfold Pat.separator, Re.test; cbn [Pat.atleast].
  destruct (JS.is_char "-" c) eqn:Hc; [|discriminate]. intros _.
  apply Ascii.eqb_eq in Hc; subst c.
  unfold JS.trim; cbn. reflexivity.
Qed.

(** The parity of the fences of the current chunk is the parity of the
    fences of all the lines read so far: a chunk is only closed where the
    parity is even. *)
Lemma split_parity pre :
  isInsideCodeBlock (Split.current (fold_left split_step pre Split.init))
  = Nat.odd (count_fences pre).
Proof.
  induction pre as [|l pre IH] using rev_ind; [reflexivity|].
  rewrite fold_left_app, count_fences_app. cbn [fold_left].
  set (st := fold_left split_step pre Split.init) in *.
  unfold isInsideCodeBlock in *. rewrite Nat.odd_add, <- IH.
  unfold split_step, isInsideCodeBlock.
  destruct (Re.test Pat.separator l) eqn:Hsep; cbn [andb].
  - cbn [count_fences]. rewrite (separator_not_fence _ Hsep). cbn [Nat.odd Nat.even negb].
    destruct (Nat.odd (count_fences (Split.current st))) eqn:Hodd; cbn [negb].
    + cbn [Split.current]. rewrite count_fences_app; cbn [count_fences].
      rewrite (separator_not_fence _ Hsep), Nat.add_0_r.
      now rewrite Hodd.
    + destruct ((0 <? List.length (Split.current st))
                || (List.length (Split.chunks st) =? 0)); cbn [Split.current].
      * reflexivity.
      * now rewrite Hodd.
  - cbn [Split.current]. rewrite count_fences_app. now rewrite Nat.odd_add.
Qed.





(* ================================================================== *)
(** * Frontmatter keys *)
(* ================================================================== *)

(** The key of a frontmatter line: the text before its first colon,
    trimmed and in lower case. *)
Definition line_key (raw : string) : option string :=
  let line := JS.trim raw in
  match JS.indexOf ":" line with
  | Some colonIdx => Some (JS.toLowerCase (JS.trim (JS.take colonIdx line)))
  | None => None
  end.

(** Its value: the text after the first colon, trimmed, without the quotes
    around it. *)
Definition line_value (raw : string) : option string :=
  let line := JS.trim raw in
  match JS.indexOf ":" line with
  | Some colonIdx =>
      Some (Pat.strip_quotes (JS.trim (JS.drop (colonIdx + 1) line)))
  | None => None
  end.

(** The keys the specification lists. *)
Definition listed_keys : list string :=
  ["title"; "author"; "date"; "theme"; "aspect-ratio"; "accent-color";
   "font-family"; "style"].

(** The labels of the switch of [parseFrontmatter]. *)
Definition switch_keys : list string :=
  ["title"; "author"; "date"; "theme"; "aspect-ratio"; "aspectratio";
   "accent-color"; "accentcolor"; "color"; "font"; "font-family";
   "fontfamily"; "style"].

(** A line whose key is outside [keys] leaves the metadata as they are. *)
Definition only_keys_matter (keys : list string) : Prop :=
  forall meta raw,
    (forall k, line_key raw = Some k -> ~ In k keys) ->
    frontmatterLine meta raw = meta.

(** Every key of [keys] can change the metadata. *)
Definition all_keys_matter (keys : list string) : Prop :=
  forall k, In k keys ->
    exists meta raw, line_key raw = Some k /\ frontmatterLine meta raw <> meta.

(** An aspect-ratio line with a value other than the two ratios is ignored,
    and the two ratios are taken. *)
Definition ratio_guard : Prop :=
  forall meta raw k v,
    line_key raw = Some k -> line_value raw = Some v ->
    k = "aspect-ratio" \/ k = "aspectratio" ->
    (v <> "4:3" -> v <> "16:9" -> frontmatterLine meta raw = meta)
    /\ (JS.startsWith (JS.trim raw) "#" = false ->
        (v = "4:3" -> frontmatterLine meta raw = Meta.set_aspectRatio Ratio_4_3 meta)
        /\ (v = "16:9" -> frontmatterLine meta raw = Meta.set_aspectRatio Ratio_16_9 meta)).

(** The frontmatter block, laid out: the opening rule, interior lines none
    of which trims to the rule, the closing rule, the body. *)
Lemma find_closing_interior interior rest i :
  forallb (fun l => negb (JS.trim l =? "---")%string) interior = true ->
  find_closing (interior ++ "---" :: rest) i = Some (i + List.length interior).
Proof.
  revert i; induction interior as [|l ls IH]; intros i H; simpl in *.
  - f_equal; lia.
  - apply andb_true_iff in H as [Hl Hls].
    apply negb_true_iff in Hl. rewrite Hl, (IH _ Hls). f_equal; lia.
Qed.

Lemma parseFrontmatter_block interior body :
  forallb (fun l => negb (JS.trim l =? "---")%string) interior = true ->
  parseFrontmatter ("---" :: interior ++ "---" :: body)
  = (fold_left frontmatterLine interior default_meta, List.length interior + 2).
Proof.
  intros H. unfold parseFrontmatter.
  replace (List.length ("---" :: interior ++ "---" :: body) <? 2) with false.
  2:{ symmetry; apply Nat.ltb_ge. simpl. rewrite length_app. simpl. lia. }
  cbn [orb line_at nth skipn]. change (JS.trim "---" =? "---")%string with true.
  cbn [negb]. rewrite (find_closing_interior _ _ _ H).
  replace (1 + List.length interior - 1) with (List.length interior) by lia.
  rewrite firstn_app, firstn_all, Nat.sub_diag. cbn [firstn].
  rewrite app_nil_r. f_equal. lia.
Qed.

(** C6, as stated, fails: [color] is not among the listed keys, yet a
    frontmatter line with that key sets the accent colour. *)
Lemma color_alias_sets_accent :
  line_key "color: red" = Some "color"
  /\ ~ In "color" listed_keys
  /\ frontmatterLine default_meta "color: red"
     = Meta.set_accentColor "red" default_meta
  /\ frontmatterLine default_meta "color: red" <> default_meta
  /\ Meta.accentColor (fst (parseFrontmatter ["---"; "color: red"; "---"; "# A"]))
     = Some "red".
Proof.
  repeat split; try reflexivity.
  - cbv [listed_keys In]. intros Hin.
    repeat (destruct Hin as [Hin|Hin]; [discriminate Hin|]). exact Hin.
  - vm_compute. discriminate.
Qed.

Ltac key_case key lit :=
  destruct (String.eqb_spec key lit) as [->|_];
  [exfalso; match goal with H : forall k, Some _ = Some k -> ~ _ |- _ =>
     apply (H _ eq_refl); cbv [switch_keys In]; tauto end|].

(** C6 (amended).  Exactly the keys title, author, date, theme,
    aspect-ratio, aspectratio, accent-color, accentcolor, color, font,
    font-family, fontfamily and style (compared trimmed and in lower case)
    can affect the metadata: a line with any other key leaves them
    unchanged, every one of these keys changes them on some line, and an
    aspect-ratio value is taken only when it is exactly 4:3 or 16:9, the
    line being ignored otherwise. *)
Theorem frontmatter_keys :
  only_keys_matter switch_keys /\ all_keys_matter switch_keys /\ ratio_guard.
Proof.
  split; [|split].
  - intros meta raw H. unfold line_key in H. unfold frontmatterLine.
    destruct (JS.is_empty (JS.trim raw) || JS.startsWith (JS.trim raw) "#");
      [reflexivity|].
    destruct (JS.indexOf ":" (JS.trim raw)) as [idx|]; [|reflexivity].
    set (key := JS.toLowerCase (JS.trim (JS.take idx (JS.trim raw)))) in *.
    clearbody key.
    key_case key "title". key_case key "author". key_case key "date".
    key_case key "theme". key_case key "aspect-ratio".
    key_case key "aspectratio". cbn [orb].
    key_case key "accent-color". key_case key "accentcolor".
    key_case key "color". cbn [orb].
    key_case key "font". key_case key "font-family".
    key_case key "fontfamily". cbn [orb].
    key_case key "style". reflexivity.
  - intros k Hk. exists default_meta, (k ++ ": 4:3")%string.
    cbv [switch_keys In] in Hk.
    repeat (destruct Hk as [<-|Hk]; [split; [reflexivity|vm_compute; discriminate]|]).
    destruct Hk.
  - intros meta raw k v Hk Hv Hkey. unfold line_key in Hk. unfold line_value in Hv.
    unfold frontmatterLine.
    destruct (JS.indexOf ":" (JS.trim raw)) as [idx|] eqn:Hidx; [|discriminate].
    injection Hk as Hk. injection Hv as Hv. rewrite Hk, Hv.
    assert (Hrest : forall X (a b c d e f : X),
      (if (k =? "title")%string then a
       else if (k =? "author")%string then b
       else if (k =? "date")%string then c
       else if (k =? "theme")%string then d
       else if (k =? "aspect-ratio")%string || (k =? "aspectratio")%string
       then e else f) = e).
    { intros. destruct Hkey as [-> | ->]; reflexivity. }
    rewrite Hrest. clear Hrest.
    split.
    + intros H43 H169.
      destruct (JS.is_empty (JS.trim raw) || JS.startsWith (JS.trim raw) "#");
        [reflexivity|].
      destruct (String.eqb_spec v "4:3"); [contradiction|].
      destruct (String.eqb_spec v "16:9"); [contradiction|]. reflexivity.
    + intros Hhash. rewrite Hhash, orb_false_r.
      destruct (JS.is_empty (JS.trim raw)) eqn:He.
      { apply is_empty_true in He. rewrite He in Hidx. discriminate Hidx. }
      split; intros ->; reflexivity.
Qed.

(* ================================================================== *)
(** * Layout inference *)
(* ================================================================== *)

Definition is_image (b : Block.t) : bool :=
  match Block.type b with Image => true | _ => false end.

(** The layout table of the specification, by number of content blocks:
    [hasTitle] says whether the slide has a title, [firstNoTitle] whether it
    is the first slide of a document whose metadata had no title. *)
Definition layout_rule (hasTitle : bool) (blocks : list Block.t)
  (firstNoTitle : bool) : SlideLayout :=
  match blocks with
  | [] =>
      if firstNoTitle then LTitle
      else if hasTitle then LSection
      else LContent
  | [b] => if is_image b && negb hasTitle then LImageFull else LContent
  | _ :: _ :: _ => LContent
  end.

Lemma inferLayout_rule title subtitle blocks isFirstSlide :
  inferLayout title subtitle blocks isFirstSlide
  = layout_rule (JS.truthy title) blocks isFirstSlide.
Proof.
  unfold inferLayout, layout_rule, hasOnlyImageBlock, is_image.
  destruct blocks as [|b [|b' bs]]; cbn [List.length Nat.eqb andb].
  - now rewrite !andb_true_r.
  - rewrite !andb_false_r. now destruct (Block.type b), (JS.truthy title).
  - now rewrite !andb_false_r.
Qed.

Lemma layout_rule_range hasTitle blocks firstNoTitle :
  layout_rule hasTitle blocks firstNoTitle <> LTwoColumn
  /\ layout_rule hasTitle blocks firstNoTitle <> LBlank.
Proof.
  unfold layout_rule.
  destruct blocks as [|b [|b' bs]], firstNoTitle, hasTitle;
    try destruct (is_image b); split; discriminate.
Qed.

(* ================================================================== *)
(** * Assembly *)
(* ================================================================== *)

Lemma parseSlide_fields fuel lines isFirstSlide s :
  parseSlide fuel lines isFirstSlide = Some s ->
  Slide.layout s
  = inferLayout (Slide.title s) (Slide.subtitle s) (Slide.blocks s) isFirstSlide.
Proof.
  unfold parseSlide. destruct (slide_loop fuel lines _); [|discriminate].
  now intros [= <-].
Qed.

(** The slides are the chunks, parsed one by one in order; the first-slide
    flag goes to index 0 only. *)
Lemma parseSlides_Forall2 fuel chunks i meta slides :
  parseSlides fuel chunks i meta = Some slides ->
  Forall2 (fun chunk s => exists first, parseSlide fuel chunk first = Some s)
    chunks slides.
Proof.
  revert i slides; induction chunks as [|chunk rest IH]; intros i slides; simpl.
  - intros [= <-]. constructor.
  - destruct (parseSlide fuel chunk _) as [s|] eqn:Es; [|discriminate].
    destruct (parseSlides fuel rest (S i) meta) as [ss|] eqn:Ess; [|discriminate].
    intros [= <-]. constructor; eauto.
Qed.

Lemma parseSlides_nth fuel chunks i meta slides n s :
  parseSlides fuel chunks i meta = Some slides ->
  nth_error slides n = Some s ->
  exists chunk,
    nth_error chunks n = Some chunk
    /\ parseSlide fuel chunk ((i + n =? 0) && negb (hasFrontmatterTitle meta))
       = Some s.
Proof.
  revert i slides n; induction chunks as [|chunk rest IH]; intros i slides n; simpl.
  - intros [= <-]. now destruct n.
  - destruct (parseSlide fuel chunk _) as [s0|] eqn:Es; [|discriminate].
    destruct (parseSlides fuel rest (S i) meta) as [ss|] eqn:Ess; [|discriminate].
    intros [= <-]. destruct n as [|n]; simpl.
    + intros [= <-]. exists chunk. now rewrite Nat.add_0_r.
    + intros Hn. destruct (IH _ _ _ Ess Hn) as (c & Hc & Hp).
      exists c. split; [assumption|].
      now replace (i + S n) with (S i + n) by lia.
Qed.

(** What [parse] returns, stage by stage. *)
Lemma parse_stages fuel input p :
  parse fuel input = Some p ->
  let lines := JS.split "010" input in
  let meta := fst (parseFrontmatter lines) in
  let chunks := splitIntoSlides lines (snd (parseFrontmatter lines)) in
  exists slides,
    parseSlides fuel chunks 0 meta = Some slides
    /\ p = Presentation.mk (backfill meta slides) slides.
Proof.
  unfold parse. destruct (parseFrontmatter (JS.split "010" input)) as [meta bodyStart].
  cbn [fst snd].
  destruct (parseSlides fuel _ 0 meta) as [slides|] eqn:E; [|discriminate].
  intros [= <-]. now exists slides.
Qed.

(** C5.  For every slide that [parse] returns, the layout follows the table:
    exactly one content block, an image, and no title gives image-full;
    otherwise the first slide of a document whose metadata had no title,
    with no content block, gives title; otherwise a title and no content
    block gives section; otherwise content.  The layouts two-column and
    blank are never produced. *)
Theorem parsed_slide_layout fuel input p n s :
  parse fuel input = Some p ->
  nth_error (Presentation.slides p) n = Some s ->
  let meta := fst (parseFrontmatter (JS.split "010" input)) in
  Slide.layout s
  = layout_rule (JS.truthy (Slide.title s)) (Slide.blocks s)
      ((n =? 0) && negb (JS.truthy (Meta.title meta)))
  /\ Slide.layout s <> LTwoColumn
  /\ Slide.layout s <> LBlank.
Proof.
  intros Hp Hn meta.
  destruct (parse_stages _ _ _ Hp) as (slides & Hs & ->).
  cbn [Presentation.slides] in Hn.
  destruct (parseSlides_nth _ _ _ _ _ _ _ Hs Hn) as (chunk & _ & Hc).
  apply parseSlide_fields in Hc. rewrite inferLayout_rule in Hc.
  cbn [Nat.add] in Hc. fold meta in Hc. unfold hasFrontmatterTitle in Hc.
  rewrite Hc. split; [reflexivity|]. apply layout_rule_range.
Qed.

(** The four examples of the specification: a first slide with a title
    only, a later slide with a title only, a title with one bullet list, a
    lone image without a title; the theorem is applied to the last one. *)
Lemma parsed_slide_layout_examples :
  exists p s,
    parse 20 (text ["# Hello"; "---"; "# Part"; "---"; "# T"; "- a"; "---";
                    "![pic](a.png)"]) = Some p
    /\ map Slide.layout (Presentation.slides p)
       = [LTitle; LSection; LContent; LImageFull]
    /\ nth_error (Presentation.slides p) 3 = Some s
    /\ Slide.layout s
       = layout_rule (JS.truthy (Slide.title s)) (Slide.blocks s)
           ((3 =? 0) && negb (JS.truthy None))
    /\ Slide.layout s <> LTwoColumn
    /\ Slide.layout s <> LBlank.
Proof.
  eexists. eexists. split; [vm_compute; reflexivity|]. split; [reflexivity|].
  split; [reflexivity|].
  exact (parsed_slide_layout 20
           (text ["# Hello"; "---"; "# Part"; "---"; "# T"; "- a"; "---";
                  "![pic](a.png)"]) _ 3 _ eq_refl eq_refl).
Defined.

Lemma has_content_spec chunk :
  has_content chunk = true
  <-> exists line, In line chunk /\ JS.trim line <> EmptyString.
Proof.
  unfold has_content. rewrite existsb_exists.
  split; intros (line & Hin & H); exists line; split; try assumption.
  - intros E. rewrite E in H. discriminate.
  - now destruct (JS.trim line).
Qed.

(** C7.  The presentation [parse] returns has exactly one slide per
    segmented chunk with at least one non-blank line, in the order of the
    chunks; a chunk whose lines are all blank gives no slide. *)
Theorem one_slide_per_chunk fuel input p :
  parse fuel input = Some p ->
  let lines := JS.split "010" input in
  let chunks := segment lines (snd (parseFrontmatter lines)) in
  let kept := filter has_content chunks in
  List.length (Presentation.slides p) = List.length kept
  /\ Forall2 (fun chunk s => exists first, parseSlide fuel chunk first = Some s)
       kept (Presentation.slides p)
  /\ (forall chunk,
        In chunk kept
        <-> In chunk chunks
            /\ exists line, In line chunk /\ JS.trim line <> EmptyString).
Proof.
  intros Hp lines chunks kept.
  destruct (parse_stages _ _ _ Hp) as (slides & Hs & ->).
  cbn [Presentation.slides]. fold lines in Hs.
  apply parseSlides_Forall2 in Hs. fold chunks in Hs. unfold splitIntoSlides in Hs.
  fold chunks kept in Hs.
  split; [symmetry; exact (Forall2_length Hs)|]. split; [exact Hs|].
  intros chunk. unfold kept. rewrite filter_In, has_content_spec. reflexivity.
Qed.

(** Two rules around a blank chunk: three chunks are segmented, the blank
    one gives no slide. *)
Lemma one_slide_per_chunk_example :
  exists p,
    parse 20 (text ["# One"; "---"; ""; "  "; "---"; "# Two"]) = Some p
    /\ segment (JS.split "010" (text ["# One"; "---"; ""; "  "; "---"; "# Two"])) 0
       = [["# One"]; [""; "  "]; ["# Two"]]
    /\ map Slide.title (Presentation.slides p) = [Some "One"; Some "Two"]
    /\ List.length (Presentation.slides p) = 2.
Proof.
  eexists. split; [vm_compute; reflexivity|]. split; [reflexivity|].
  split; [reflexivity|].
  exact (proj1 (one_slide_per_chunk 20
                  (text ["# One"; "---"; ""; "  "; "---"; "# Two"]) _ eq_refl)).
Defined.

(** The title of the first slide, if there is a slide. *)
Definition first_title (slides : list Slide.t) : option string :=
  match slides with
  | s :: _ => Slide.title s
  | [] => None
  end.

(** C8.  Assembly returns the slides as parsed and the frontmatter metadata
    with one possible change: when the metadata have no title and the first
    slide has a non-empty one, that title becomes the title of the
    metadata; the other fields are those of the frontmatter. *)
Theorem title_backfill fuel input p :
  parse fuel input = Some p ->
  let lines := JS.split "010" input in
  let meta0 := fst (parseFrontmatter lines) in
  let chunks := splitIntoSlides lines (snd (parseFrontmatter lines)) in
  let meta := Presentation.meta p in
  let slides := Presentation.slides p in
  parseSlides fuel chunks 0 meta0 = Some slides
  /\ Meta.title meta
     = (if negb (JS.truthy (Meta.title meta0)) && JS.truthy (first_title slides)
        then first_title slides else Meta.title meta0)
  /\ Meta.author meta = Meta.author meta0
  /\ Meta.date meta = Meta.date meta0
  /\ Meta.theme meta = Meta.theme meta0
  /\ Meta.aspectRatio meta = Meta.aspectRatio meta0
  /\ Meta.accentColor meta = Meta.accentColor meta0
  /\ Meta.fontFamily meta = Meta.fontFamily meta0
  /\ Meta.style meta = Meta.style meta0.
Proof.
  intros Hp. destruct (parse_stages _ _ _ Hp) as (ss & Hs & ->).
  cbv zeta in *. cbn [Presentation.meta Presentation.slides].
  set (meta0 := fst (parseFrontmatter (JS.split "010" input))) in *.
  split; [exact Hs|].
  unfold backfill, first_title. destruct ss as [|s ss'].
  - rewrite andb_false_r. now repeat split.
  - destruct (negb (JS.truthy (Meta.title meta0)) && JS.truthy (Slide.title s)) eqn:E.
    + apply andb_true_iff in E as [_ E].
      destruct (Slide.title s) as [t|]; [|discriminate]. now repeat split.
    + now repeat split.
Qed.

(** No frontmatter, first heading "Welcome": the metadata get the title. *)
Lemma title_backfill_welcome :
  exists p,
    parse 20 (text ["# Welcome"; ""; "Hello there"]) = Some p
    /\ Meta.title (fst (parseFrontmatter
                          (JS.split "010" (text ["# Welcome"; ""; "Hello there"]))))
       = None
    /\ Meta.title (Presentation.meta p) = Some "Welcome".
Proof.
  eexists. split; [vm_compute; reflexivity|]. split; [reflexivity|].
  exact (proj1 (proj2 (title_backfill 20
                         (text ["# Welcome"; ""; "Hello there"]) _ eq_refl))).
Defined.

(* ================================================================== *)
(** * The blocks of a slide *)
(* ================================================================== *)

Lemma skipn_line_at lines i :
  i < List.length lines ->
  skipn i lines = line_at lines i :: skipn (S i) lines.
Proof.
  revert i; induction lines as [|l ls IH]; intros i H; simpl in H; [lia|].
  destruct i as [|i]; [reflexivity|].
  simpl. unfold line_at in *. simpl. apply IH. lia.
Qed.

Lemma bullet_loop_grows ls items i :
  exists more, fst (bullet_loop ls items i) = items ++ more.
Proof.
  revert items i; induction ls as [|l rest IH]; intros items i; simpl.
  - exists []. now rewrite app_nil_r.
  - destruct (Re.test Pat.bullet (JS.trim l)).
    + destruct (IH (items ++ [Re.strip Pat.bullet (JS.trim l)]) (S i)) as (more & ->).
      eexists. now rewrite <- app_assoc.
    + destruct (Re.test Pat.bullet_indented l && (0 <? List.length items)).
      * match goal with |- context [bullet_loop rest ?it ?j] =>
          destruct (IH it j) as (more & ->) end.
        eexists. now rewrite <- app_assoc.
      * destruct (JS.is_empty (JS.trim l) && next_is (Re.test Pat.bullet_any) rest).
        -- apply IH.
        -- exists []. simpl. now rewrite app_nil_r.
Qed.

Lemma numbered_loop_grows ls items i :
  exists more, fst (numbered_loop ls items i) = items ++ more.
Proof.
  revert items i; induction ls as [|l rest IH]; intros items i; simpl.
  - exists []. now rewrite app_nil_r.
  - destruct (Re.test Pat.numbered (JS.trim l)).
    + destruct (IH (items ++ [Re.strip Pat.numbered (JS.trim l)]) (S i)) as (more & ->).
      eexists. now rewrite <- app_assoc.
    + destruct (JS.is_empty (JS.trim l)
                && next_is (fun n => Re.test Pat.numbered (JS.trim n)) rest).
      * apply IH.
      * exists []. simpl. now rewrite app_nil_r.
Qed.

(** A list block has at least one item. *)
Definition list_block_ok (b : Block.t) : Prop :=
  match Block.type b with
  | Bullets | Numbered =>
      match Block.items b with
      | Some (_ :: _) => True
      | _ => False
      end
  | _ => True
  end.

(** The bullet-list parser started on a bullet line returns an item. *)
Lemma parseBulletList_nonempty lines i :
  i < List.length lines ->
  Re.test Pat.bullet (JS.trim (line_at lines i)) = true ->
  list_block_ok (fst (parseBulletList lines i)).
Proof.
  intros Hi Hb. unfold parseBulletList.
  rewrite (skipn_line_at _ _ Hi). cbn [bullet_loop]. rewrite Hb.
  destruct (bullet_loop_grows (skipn (S i) lines)
              ([] ++ [Re.strip Pat.bullet (JS.trim (line_at lines i))]) (S i))
    as (more & Hm).
  destruct (bullet_loop _ _ _) as [items j]. cbn [fst] in *. subst items.
  exact I.
Qed.

Lemma parseNumberedList_nonempty lines i :
  i < List.length lines ->
  Re.test Pat.numbered (JS.trim (line_at lines i)) = true ->
  list_block_ok (fst (parseNumberedList lines i)).
Proof.
  intros Hi Hb. unfold parseNumberedList.
  rewrite (skipn_line_at _ _ Hi). cbn [numbered_loop]. rewrite Hb.
  destruct (numbered_loop_grows (skipn (S i) lines)
              ([] ++ [Re.strip Pat.numbered (JS.trim (line_at lines i))]) (S i))
    as (more & Hm).
  destruct (numbered_loop _ _ _) as [items j]. cbn [fst] in *. subst items.
  exact I.
Qed.

Lemma other_block_ok (r : Block.t * Z) :
  match Block.type (fst r) with Bullets | Numbered => False | _ => True end ->
  list_block_ok (fst r).
Proof. unfold list_block_ok. now destruct (Block.type (fst r)). Qed.

Lemma Forall_snoc {X} (P : X -> Prop) (l : list X) (x : X) :
  Forall P l -> P x -> Forall P (l ++ [x]).
Proof. intros Hl Hx. apply Forall_app. split; [assumption|]. now constructor. Qed.

(** One turn of the loop keeps the invariant. *)
Lemma dispatch_list_blocks lines st :
  Cursor.i st < List.length lines ->
  Forall list_block_ok (Cursor.blocks st) ->
  Forall list_block_ok (Cursor.blocks (dispatch lines st)).
Proof.
  intros Hi Hok. unfold dispatch.
  destruct (JS.is_empty _); [exact Hok|].
  destruct (_ || _); [exact Hok|].
  destruct (_ || _); [exact Hok|].
  destruct (Re.test Pat.h1 _ && negb _); [exact Hok|].
  destruct (Re.test Pat.h1 _ && JS.truthy _);
    [now apply Forall_snoc|].
  destruct (Re.test Pat.h2 _).
  { destruct (negb _); [exact Hok|]. destruct (negb _); [exact Hok|].
    now apply Forall_snoc. }
  destruct (Re.test Pat.h3 _); [now apply Forall_snoc|].
  destruct (Re.test Pat.fence _).
  { unfold dispatchFence.
    destruct (_ =? "chart")%string;
      [apply Forall_snoc; [exact Hok|];
       unfold parseChartBlock; destruct (fenced_lines _ _ _); exact I|].
    destruct (_ =? "mindmap")%string;
      [apply Forall_snoc; [exact Hok|];
       unfold parseMindMapBlock; destruct (fenced_lines _ _ _); exact I|].
    apply Forall_snoc; [exact Hok|].
    unfold parseCodeBlock; destruct (code_loop _ _ _); exact I. }
  unfold dispatchContent.
  destruct (Pat.stock _) as [[query orient]|]; [now apply Forall_snoc|].
  destruct (Pat.ai _) as [[style prompt]|]; [now apply Forall_snoc|].
  destruct (Pat.image _) as [[alt_text src]|]; [now apply Forall_snoc|].
  destruct (Re.test Pat.quote _).
  { apply Forall_snoc; [exact Hok|].
    unfold parseBlockquote; destruct (quote_loop _ _ _); exact I. }
  destruct (Re.test Pat.bullet _) eqn:Hb.
  { apply Forall_snoc; [exact Hok|]. now apply parseBulletList_nonempty. }
  destruct (Re.test Pat.numbered _) eqn:Hn.
  { apply Forall_snoc; [exact Hok|]. now apply parseNumberedList_nonempty. }
  apply Forall_snoc; [exact Hok|].
  unfold parseParagraph; destruct (paragraph_loop _ _ _); exact I.
Qed.

Lemma slide_loop_list_blocks fuel lines st st' :
  slide_loop fuel lines st = Some st' ->
  Forall list_block_ok (Cursor.blocks st) ->
  Forall list_block_ok (Cursor.blocks st').
Proof.
  revert st; induction fuel as [|fuel IH]; intros st; simpl;
    destruct (Cursor.i st <? List.length lines) eqn:Hi;
    try discriminate; try (intros [= <-]; tauto).
  intros H Hok. apply (IH _ H). apply dispatch_list_blocks; [|exact Hok].
  now apply Nat.ltb_lt.
Qed.

(** C10.  Every content block of type bullets or numbered in a slide that
    [parse] returns has a non-empty items array. *)
Theorem list_blocks_nonempty fuel input p s b :
  parse fuel input = Some p ->
  In s (Presentation.slides p) ->
  In b (Slide.blocks s) ->
  (Block.type b = Bullets \/ Block.type b = Numbered) ->
  exists item rest, Block.items b = Some (item :: rest).
Proof.
  intros Hp Hs Hb Hty.
  destruct (parse_stages _ _ _ Hp) as (slides & Hss & ->).
  cbn [Presentation.slides] in Hs. apply parseSlides_Forall2 in Hss.
  assert (Hall : Forall (fun s => Forall list_block_ok (Slide.blocks s)) slides).
  { clear Hs Hp. induction Hss as [|chunk s' cs ss (first & Hc) _ IH];
      [constructor|]. constructor; [|exact IH].
    unfold parseSlide in Hc.
    destruct (slide_loop fuel chunk _) as [st|] eqn:Hl; [|discriminate].
    injection Hc as <-. cbn [Slide.blocks].
    apply (slide_loop_list_blocks _ _ _ _ Hl). constructor. }
  rewrite Forall_forall in Hall. specialize (Hall _ Hs).
  rewrite Forall_forall in Hall. specialize (Hall _ Hb).
  unfold list_block_ok in Hall.
  destruct Hty as [E|E]; rewrite E in Hall;
    destruct (Block.items b) as [[|item rest]|]; try contradiction;
    now exists item, rest.
Qed.

(** A slide with a bullet list and a numbered list. *)
Lemma list_blocks_nonempty_example :
  exists p s b,
    parse 20 (text ["# T"; "- a"; "- b"; ""; "1. x"]) = Some p
    /\ nth_error (Presentation.slides p) 0 = Some s
    /\ nth_error (Slide.blocks s) 0 = Some b
    /\ Block.type b = Bullets
    /\ Block.items b = Some ["a"; "b"]
    /\ exists item rest, Block.items b = Some (item :: rest).
Proof.
  eexists. eexists. eexists. split; [vm_compute; reflexivity|].
  split; [reflexivity|]. split; [reflexivity|]. split; [reflexivity|].
  split; [reflexivity|].
  refine (list_blocks_nonempty 20 (text ["# T"; "- a"; "- b"; ""; "1. x"])
            _ _ _ eq_refl _ _ _).
  - left; reflexivity.
  - left; reflexivity.
  - left; reflexivity.
Defined.

(* ================================================================== *)
(** * Termination of the dispatch loop *)
(* ================================================================== *)

(** A chunk whose first line leaves the cursor at 0 uses up any fuel. *)
Lemma stall_at_start lines :
  0 < List.length lines ->
  (forall st, Cursor.i st = 0 -> Cursor.i (dispatch lines st) = 0) ->
  forall fuel st, Cursor.i st = 0 -> slide_loop fuel lines st = None.
Proof.
  intros Hlen Hstall. induction fuel as [|fuel IH]; intros st Hi; simpl;
    rewrite Hi; apply Nat.ltb_lt in Hlen; rewrite Hlen; [reflexivity|].
  apply IH. now apply Hstall.
Qed.

(** On a comment that is neither a notes nor a background directive, the
    paragraph parser stops at once: it returns an empty text block and
    [endIndex = startIndex - 1], so the turn appends a block and leaves the
    cursor where it was. *)
Lemma comment_line_stalls st :
  Cursor.i st = 0 ->
  dispatch ["<!-- draft -->"] st
  = Cursor.mk 0 (Cursor.blocks st ++ [Block.plain Text EmptyString])
      (Cursor.title st) (Cursor.subtitle st) (Cursor.notes st)
      (Cursor.background st).
Proof. destruct st as [i bs t su n bg]; simpl; intros ->; reflexivity. Qed.

Lemma open_image_line_stalls st :
  Cursor.i st = 0 ->
  dispatch ["![broken"] st
  = Cursor.mk 0 (Cursor.blocks st ++ [Block.plain Text EmptyString])
      (Cursor.title st) (Cursor.subtitle st) (Cursor.notes st)
      (Cursor.background st).
Proof. destruct st as [i bs t su n bg]; simpl; intros ->; reflexivity. Qed.

Lemma parse_single_chunk fuel input chunk :
  parseFrontmatter (JS.split "010" input) = (default_meta, 0) ->
  splitIntoSlides (JS.split "010" input) 0 = [chunk] ->
  skip_blank chunk 0 = 0 ->
  0 < List.length chunk ->
  (forall st, Cursor.i st = 0 -> Cursor.i (dispatch chunk st) = 0) ->
  parse fuel input = None.
Proof.
  intros Hfm Hsp Hsk Hlen Hstall. unfold parse. rewrite Hfm, Hsp.
  cbn [parseSlides]. unfold parseSlide. rewrite Hsk.
  now rewrite (stall_at_start chunk Hlen Hstall fuel).
Qed.

(** C1 (the code at the failing inputs).  On the one-line inputs
    "<!-- draft -->" and "![broken" the dispatch loop never moves the cursor:
    whatever the fuel, [parse] does not return. *)
Theorem parse_diverges_on_comment fuel :
  parse fuel "<!-- draft -->" = None /\ parse fuel "![broken" = None.
Proof.
  split.
  - apply (parse_single_chunk fuel _ ["<!-- draft -->"]);
      try reflexivity; [simpl; lia|].
    intros st Hi. now rewrite (comment_line_stalls st Hi).
  - apply (parse_single_chunk fuel _ ["![broken"]);
      try reflexivity; [simpl; lia|].
    intros st Hi. now rewrite (open_image_line_stalls st Hi).
Qed.

(* ================================================================== *)
(** * Trimming *)
(* ================================================================== *)

Lemma trimEnd_idem s : JS.trimEnd (JS.trimEnd s) = JS.trimEnd s.
Proof.
  induction s as [|c r IH]; [reflexivity|]. cbn [JS.trimEnd].
  destruct (JS.is_space c && JS.is_empty (JS.trimEnd r)) eqn:E; [reflexivity|].
  cbn [JS.trimEnd]. now rewrite IH, E.
Qed.

Lemma trimStart_idem s : JS.trimStart (JS.trimStart s) = JS.trimStart s.
Proof.
  induction s as [|c r IH]; [reflexivity|]. cbn [JS.trimStart].
  destruct (JS.is_space c) eqn:E; [exact IH|]. cbn [JS.trimStart]. now rewrite E.
Qed.

(** A string without white space at its end keeps that on every suffix. *)
Lemma trimEnd_fixed_tail c r :
  JS.trimEnd (String c r) = String c r -> JS.trimEnd r = r.
Proof.
  cbn [JS.trimEnd].
  destruct (JS.is_space c && JS.is_empty (JS.trimEnd r)); [discriminate|].
  now intros [= ->].
Qed.

Lemma trimEnd_fixed_space c r :
  JS.trimEnd (String c r) = String c r -> JS.is_space c = true ->
  r <> EmptyString.
Proof.
  cbn [JS.trimEnd]. intros H Hc ->. rewrite Hc in H. discriminate.
Qed.

Lemma trimStart_fixed_end s :
  JS.trimEnd s = s -> JS.trimEnd (JS.trimStart s) = JS.trimStart s.
Proof.
  induction s as [|c r IH]; [reflexivity|]. intros H. cbn [JS.trimStart].
  destruct (JS.is_space c); [|exact H].
  apply IH. exact (trimEnd_fixed_tail _ _ H).
Qed.

Lemma trimStart_nonempty s :
  JS.trimEnd s = s -> s <> EmptyString -> JS.trimStart s <> EmptyString.
Proof.
  induction s as [|c r IH]; [congruence|]. intros H _. cbn [JS.trimStart].
  destruct (JS.is_space c) eqn:Hc; [|discriminate].
  apply IH; [exact (trimEnd_fixed_tail _ _ H)|exact (trimEnd_fixed_space _ _ H Hc)].
Qed.

Lemma trim_trimEnd s : JS.trimEnd (JS.trim s) = JS.trim s.
Proof. apply trimEnd_idem. Qed.

Lemma trim_trimStart s : JS.trimStart (JS.trim s) = JS.trim s.
Proof.
  unfold JS.trim. induction s as [|c r IH]; [reflexivity|]. cbn [JS.trimStart].
  destruct (JS.is_space c) eqn:Hc; [exact IH|].
  cbn [JS.trimEnd]. rewrite Hc. cbn [andb JS.trimStart]. now rewrite Hc.
Qed.

Lemma trim_idem s : JS.trim (JS.trim s) = JS.trim s.
Proof. unfold JS.trim at 1. now rewrite trim_trimStart, trim_trimEnd. Qed.

(** The greedy run of white space with nothing asked of what follows is
    [trimStart]. *)
Lemma star_space_rest s :
  Re.star JS.is_space Re.rest_of s = Some (JS.trimStart s).
Proof.
  induction s as [|c r IH]; [reflexivity|]. cbn [Re.star JS.trimStart].
  destruct (JS.is_space c); [|reflexivity].
  change (fun (m : string) rest => Re.rest_of (String c m) rest) with Re.rest_of.
  now rewrite IH.
Qed.

(** The bullet pattern, read on the string: a marker, a white space, and
    what follows without its leading white space. *)
Lemma bullet_match s :
  Pat.bullet s
  = match s with
    | String m (String w r) =>
        if Pat.is_marker m && JS.is_space w then Some (JS.trimStart r) else None
    | _ => None
    end.
Proof.
  unfold Pat.bullet, Re.one, Re.plus.
  destruct s as [|m [|w r]]; [reflexivity|now destruct (Pat.is_marker m)|].
  destruct (Pat.is_marker m); [|reflexivity].
  destruct (JS.is_space w); [|reflexivity].
  change (fun (m0 : string) rest => Re.rest_of (String w m0) rest) with Re.rest_of.
  apply star_space_rest.
Qed.

(* ================================================================== *)
(** * Bullet lists: items and their lines *)
(* ================================================================== *)

(** The text of a top-level item: not empty, no white space at either end. *)
Definition clean (t : string) : Prop :=
  JS.trimStart t = t /\ JS.trimEnd t = t /\ t <> EmptyString.














(* ================================================================== *)
(** * More facts about matchers *)
(* ================================================================== *)

Section MoreMatcherFacts.
Context {A : Type}.
Implicit Types (k : @Re.kont A) (s m r : string).


Lemma lit_ci_some p k s a :
  Re.lit_ci p k s = Some a ->
  exists m r, s = (m ++ r)%string /\ JS.toLowerCase m = p /\ k m r = Some a.
Proof.
  revert k s; induction p as [|c p IH]; intros k s H; cbn [Re.lit_ci] in H.
  - now exists EmptyString, s.
  - destruct s as [|d s]; [discriminate|].
    destruct (Ascii.eqb_spec (JS.lower_char d) c) as [E|]; [|discriminate].
    destruct (IH _ _ H) as (m & r & -> & Hm & Hk).
    exists (String d m), r. cbn. now rewrite E, Hm.
Qed.

Lemma atleast_hit n cls k m r a :
  all cls m = true -> n <= String.length m -> stops cls r = true ->
  k m r = Some a ->
  Pat.atleast n cls k (m ++ r)%string = Some a.
Proof.
  revert k m; induction n as [|n IH]; intros k m Hm Hn Hr Hk; cbn [Pat.atleast].
  - now apply star_hit.
  - destruct m as [|c m]; [simpl in Hn; lia|].
    cbn in Hm. apply andb_true_iff in Hm as [Hc Hm]. cbn [append]. rewrite Hc.
    apply (IH (fun m' rest => k (String c m') rest)); try assumption.
    simpl in Hn; lia.
Qed.


End MoreMatcherFacts.

Lemma string_app_assoc (a b c : string) :
  ((a ++ b) ++ c)%string = (a ++ (b ++ c))%string.
Proof. induction a as [|x a IH]; cbn; [reflexivity|now rewrite IH]. Qed.

Lemma string_app_nil_r (a : string) : (a ++ "")%string = a.
Proof. induction a as [|x a IH]; cbn; [reflexivity|now rewrite IH]. Qed.

(** The greedy dot-plus up to the end of the input takes a whole line
    without line terminator. *)
Lemma dots_to_end t :
  t <> EmptyString -> all JS.is_dot t = true ->
  Re.plus JS.is_dot (fun m => Re.eos m) t = Some t.
Proof.
  intros Hne Hd. destruct t as [|c t]; [congruence|].
  cbn in Hd. apply andb_true_iff in Hd as [Hc Hd].
  rewrite <- (string_app_nil_r t) at 1.
  apply (plus_hit JS.is_dot (fun m => Re.eos m)); try assumption; reflexivity.
Qed.

Lemma trimEnd_fixed_suffix a b :
  JS.trimEnd (a ++ b)%string = (a ++ b)%string -> JS.trimEnd b = b.
Proof.
  induction a as [|c a IH]; cbn [append]; [tauto|].
  intros H. apply IH. exact (trimEnd_fixed_tail _ _ H).
Qed.

Lemma trimStart_stops s : stops JS.is_space s = true -> JS.trimStart s = s.
Proof.
  destruct s as [|c r]; [reflexivity|]. cbn. intros H.
  apply negb_true_iff in H. now rewrite H.
Qed.

Lemma trimStart_spaces ws r :
  all JS.is_space ws = true -> stops JS.is_space r = true ->
  JS.trimStart (ws ++ r)%string = r.
Proof.
  induction ws as [|c ws IH]; cbn [append all]; intros Hw Hr.
  - now apply trimStart_stops.
  - apply andb_true_iff in Hw as [Hc Hw]. cbn [JS.trimStart]. rewrite Hc. now apply IH.
Qed.


(* ================================================================== *)
(** * The mind-map mini-language *)
(* ================================================================== *)

Lemma clean_stops t : clean t -> stops JS.is_space t = true.
Proof.
  intros (Hs & _ & Hne). destruct t as [|c r]; [congruence|]. cbn.
  cbn [JS.trimStart] in Hs. destruct (JS.is_space c) eqn:Hc; [|reflexivity].
  exfalso. assert (L : String.length (JS.trimStart r) <= String.length r).
  { clear. induction r as [|d r IH]; simpl; [lia|].
    destruct (JS.is_space d); simpl; lia. }
  rewrite Hs in L. simpl in L. lia.
Qed.

Lemma clean_trim t : clean t -> JS.trim t = t.
Proof. intros (Hs & He & _). unfold JS.trim. now rewrite Hs, He. Qed.

Lemma trim_dash r : JS.trim (String "-" r) = String "-" (JS.trimEnd r).
Proof. reflexivity. Qed.

Lemma space_not_dash c : JS.is_space c = true -> Ascii.eqb c "-" = false.
Proof.
  intros H. destruct (Ascii.eqb_spec c "-") as [->|]; [discriminate H|reflexivity].
Qed.

(** A dash, white space, and a text up to the end of the line: what the
    branch pattern and the tail of the child pattern capture. *)
Lemma dash_item ws text :
  ws <> EmptyString -> all JS.is_space ws = true ->
  clean text -> all JS.is_dot text = true ->
  Re.lit "-" (Re.plus JS.is_space (fun _ => Re.plus JS.is_dot (fun m => Re.eos m)))
    ("-" ++ ws ++ text)%string
  = Some text.
Proof.
  intros Hne Hws Hc Hd. rewrite lit_app.
  destruct ws as [|w ws]; [congruence|]. cbn in Hws.
  apply andb_true_iff in Hws as [Hw Hws]. cbn [append].
  apply (plus_hit JS.is_space (fun _ => Re.plus JS.is_dot (fun m => Re.eos m)));
    try assumption.
  - now apply clean_stops.
  - apply dots_to_end; [apply Hc|assumption].
Qed.

Lemma push_child_last c bs b :
  push_child c (bs ++ [b])
  = bs ++ [Branch.mk (Branch.label b)
             (Some (match Branch.children b with Some cs => cs | None => [] end
                    ++ [c]))].
Proof.
  induction bs as [|b0 bs IH]; [reflexivity|].
  cbn [app]. destruct bs as [|b1 bs]; [reflexivity|].
  cbn [app] in *. cbn [push_child]. cbn [push_child] in IH. now rewrite IH.
Qed.

Lemma parseMindMapData_snoc ls l :
  parseMindMapData (ls ++ [l]) = mindMapLine (parseMindMapData ls) l.
Proof. unfold parseMindMapData. now rewrite fold_left_app. Qed.

(** C3, as stated, fails: with one leading space the line " - A" matches
    neither the branch pattern (anchored on the dash) nor the child
    pattern (two white spaces at least), and is ignored. *)
Lemma one_space_branch_ignored :
  parseMindMapData [" - A"] = MindMapData.mk "Topic" []
  /\ parseMindMapData ["center: X"; " - A"; "  - A1"; "- B"]
     = MindMapData.mk "X" [Branch.mk "B" (Some [])]
  /\ parseMindMapData ["- A"] = MindMapData.mk "Topic" [Branch.mk "A" (Some [])].
Proof. repeat split; reflexivity. Qed.

(** C3 (amended).  Inside a mindmap fence, a line made of a dash at column
    0, white space and a text starts a new top-level branch with an empty
    (not absent) child list; the same with exactly one white space before
    the dash is ignored; with two or more white spaces before the dash the
    text is appended, in encounter order, as the last child of the most
    recently added branch, and the line is ignored when no branch exists
    yet.  The lines center: X, - A, (two spaces) - A1, - B give the center X
    and the branches A with the child A1 and B with no child. *)
Theorem mindmap_lines (st : MindMapData.t) :
  (forall ws text,
      ws <> EmptyString -> all JS.is_space ws = true ->
      clean text -> all JS.is_dot text = true ->
      mindMapLine st ("-" ++ ws ++ text)%string
      = MindMapData.mk (MindMapData.center st)
          (MindMapData.branches st ++ [Branch.mk text (Some [])]))
  /\ (forall w rest,
        JS.is_space w = true ->
        mindMapLine st (String w ("-" ++ rest))%string = st)
  /\ (forall ind ws text,
        all JS.is_space ind = true -> 2 <= String.length ind ->
        ws <> EmptyString -> all JS.is_space ws = true ->
        clean text -> all JS.is_dot text = true ->
        mindMapLine st (ind ++ "-" ++ ws ++ text)%string
        = match MindMapData.branches st with
          | [] => st
          | _ :: _ =>
              MindMapData.mk (MindMapData.center st)
                (push_child text (MindMapData.branches st))
          end)
  /\ (forall c bs b,
        push_child c (bs ++ [b])
        = bs ++ [Branch.mk (Branch.label b)
                   (Some (match Branch.children b with
                          | Some cs => cs
                          | None => []
                          end ++ [c]))])
  /\ (forall ls l,
        parseMindMapData (ls ++ [l]) = mindMapLine (parseMindMapData ls) l)
  /\ parseMindMapData ["center: X"; "- A"; "  - A1"; "- B"]
     = MindMapData.mk "X"
         [Branch.mk "A" (Some ["A1"]); Branch.mk "B" (Some [])].
Proof.
  split; [|split; [|split; [|split; [|split]]]].
  - intros ws text Hne Hws Hc Hd. unfold mindMapLine.
    cbn [append]. rewrite trim_dash. cbn [JS.is_empty].
    change (Pat.center (String "-" (JS.trimEnd (ws ++ text)))) with (@None string).
    change (String "-" (ws ++ text)) with ("-" ++ ws ++ text)%string.
    unfold Pat.branch. rewrite (dash_item ws text Hne Hws Hc Hd).
    now rewrite (clean_trim _ Hc).
  - intros w rest Hw. unfold mindMapLine.
    unfold JS.trim. cbn [append JS.trimStart]. rewrite Hw.
    change (JS.trimStart (String "-" rest)) with (String "-" rest).
    change (JS.trimEnd (String "-" rest)) with (String "-" (JS.trimEnd rest)).
    cbn [JS.is_empty].
    change (Pat.center (String "-" (JS.trimEnd rest))) with (@None string).
    unfold Pat.branch. cbn [Re.lit]. rewrite (space_not_dash _ Hw).
    unfold Pat.child. cbn [Pat.atleast]. rewrite Hw.
    change (JS.is_space "-") with false. reflexivity.
  - intros ind ws text Hind Hlen Hne Hws Hc Hd. unfold mindMapLine.
    unfold JS.trim. rewrite (trimStart_spaces ind ("-" ++ ws ++ text) Hind eq_refl).
    cbn [append].
    change (JS.trimEnd (String "-" (ws ++ text)))
      with (String "-" (JS.trimEnd (ws ++ text))).
    cbn [JS.is_empty].
    change (Pat.center (String "-" (JS.trimEnd (ws ++ text)))) with (@None string).
    assert (Hb : Pat.branch (ind ++ String "-" (ws ++ text))%string = None).
    { destruct ind as [|c ind]; [simpl in Hlen; lia|].
      cbn in Hind. apply andb_true_iff in Hind as [Hc0 _].
      unfold Pat.branch. cbn [append Re.lit]. now rewrite (space_not_dash _ Hc0). }
    rewrite Hb. unfold Pat.child.
    rewrite (atleast_hit 2 JS.is_space _ ind (String "-" (ws ++ text)) text
               Hind Hlen eq_refl (dash_item ws text Hne Hws Hc Hd)).
    pose proof (clean_trim _ Hc) as Ht. unfold JS.trim in Ht. rewrite Ht.
    now destruct (MindMapData.branches st).
  - apply push_child_last.
  - apply parseMindMapData_snoc.
  - reflexivity.
Qed.

(* ================================================================== *)
(** * The chart mini-language *)
(* ================================================================== *)






Lemma digit_not_space c : JS.is_digit c = true -> JS.is_space c = false.
Proof. destruct c as [[] [] [] [] [] [] [] []]; (reflexivity || discriminate). Qed.

Lemma digit_not_point c : JS.is_digit c = true -> Ascii.eqb c "." = false.
Proof.
  intros H. destruct (Ascii.eqb_spec c ".") as [->|]; [discriminate H|reflexivity].
Qed.














(* ================================================================== *)
(** * Progress of the dispatch loop *)
(* ================================================================== *)

(** The trimmed line passes every rule of the dispatcher and reaches the
    paragraph parser. *)
Definition to_paragraph (trimmed : string) : bool :=
  negb (JS.is_empty trimmed)
  && negb (JS.startsWith trimmed "<!-- notes:" || JS.startsWith trimmed "<!--notes:")
  && negb (JS.startsWith trimmed "<!-- bg:" || JS.startsWith trimmed "<!--bg:")
  && negb (Re.test Pat.h1 trimmed)
  && negb (Re.test Pat.h2 trimmed)
  && negb (Re.test Pat.h3 trimmed)
  && negb (Re.test Pat.fence trimmed)
  && negb (isSome (Pat.stock trimmed))
  && negb (isSome (Pat.ai trimmed))
  && negb (isSome (Pat.image trimmed))
  && negb (Re.test Pat.quote trimmed)
  && negb (Re.test Pat.bullet trimmed)
  && negb (Re.test Pat.numbered trimmed).

(** The line reaches the paragraph parser, which stops on it at once. *)
Definition stalls (line : string) : bool :=
  to_paragraph (JS.trim line) && paragraph_break (JS.trim line).

Lemma notes_loop_ge ls text j :
  (Z.of_nat j - 1 <= snd (notes_loop ls text j))%Z.
Proof.
  revert text j; induction ls as [|l rest IH]; intros text j; cbn [notes_loop].
  - cbn [snd]. lia.
  - destruct (JS.includes (JS.trim l) "-->"); cbn [snd]; [lia|].
    specialize (IH (text ++ nl ++ JS.trim l)%string (S j)). lia.
Qed.

Lemma code_loop_ge ls acc j :
  (Z.of_nat j - 1 <= snd (code_loop ls acc j))%Z.
Proof.
  revert acc j; induction ls as [|l rest IH]; intros acc j; cbn [code_loop].
  - cbn [snd]. lia.
  - destruct (Re.test Pat.fence_close (JS.trim l)); cbn [snd]; [lia|].
    specialize (IH (acc ++ [l]) (S j)). lia.
Qed.

Lemma fenced_lines_ge ls acc j : j <= snd (fenced_lines ls acc j).
Proof.
  revert acc j; induction ls as [|l rest IH]; intros acc j; cbn [fenced_lines].
  - cbn [snd]. lia.
  - destruct (Re.test Pat.fence_close (JS.trim l)); cbn [snd]; [lia|].
    specialize (IH (acc ++ [l]) (S j)). lia.
Qed.

Lemma quote_loop_ge ls acc j : j <= snd (quote_loop ls acc j).
Proof.
  revert acc j; induction ls as [|l rest IH]; intros acc j; cbn [quote_loop].
  - cbn [snd]. lia.
  - destruct (Re.test Pat.quote0 (JS.trim l)); cbn [snd]; [|lia].
    specialize (IH (acc ++ [Re.strip Pat.quote0 (JS.trim l)]) (S j)). lia.
Qed.

Lemma bullet_loop_ge ls acc j : j <= snd (bullet_loop ls acc j).
Proof.
  revert acc j; induction ls as [|l rest IH]; intros acc j; cbn [bullet_loop].
  - cbn [snd]. lia.
  - repeat match goal with
           | |- context [if ?c then _ else _] => destruct c
           | |- context [bullet_loop rest ?a (S j)] =>
               specialize (IH a (S j)); lia
           end.
    cbn [snd]. lia.
Qed.

Lemma numbered_loop_ge ls acc j : j <= snd (numbered_loop ls acc j).
Proof.
  revert acc j; induction ls as [|l rest IH]; intros acc j; cbn [numbered_loop].
  - cbn [snd]. lia.
  - repeat match goal with
           | |- context [if ?c then _ else _] => destruct c
           | |- context [numbered_loop rest ?a (S j)] =>
               specialize (IH a (S j)); lia
           end.
    cbn [snd]. lia.
Qed.

Lemma paragraph_loop_ge ls acc j : j <= snd (paragraph_loop ls acc j).
Proof.
  revert acc j; induction ls as [|l rest IH]; intros acc j; cbn [paragraph_loop].
  - cbn [snd]. lia.
  - destruct (paragraph_break (JS.trim l)); cbn [snd]; [lia|].
    specialize (IH (acc ++ [JS.trim l]) (S j)). lia.
Qed.

(** The pattern of the dispatcher for a quote implies the one of the
    quote loop. *)
Lemma quote_quote0 s : Re.test Pat.quote s = true -> Re.test Pat.quote0 s = true.
Proof.
  unfold Re.test, Pat.quote, Pat.quote0. cbn [Re.lit].
  destruct s as [|c s]; [discriminate|].
  destruct (Ascii.eqb c ">"); [|discriminate]. intros _.
  now rewrite star_space_rest.
Qed.

(** Where each sub-parser leaves the cursor. *)
Lemma extractNotes_next lines i :
  i < Z.to_nat (snd (extractNotes lines i) + 1).
Proof.
  unfold extractNotes. destruct (JS.includes _ "-->"); cbn [snd]; [lia|].
  pose proof (notes_loop_ge (skipn (i + 1) lines)
                (JS.trim (Re.strip_first Pat.notes_open (JS.trim (line_at lines i))))
                (i + 1)). lia.
Qed.

Lemma parseCodeBlock_next lines i :
  i < Z.to_nat (snd (parseCodeBlock lines i) + 1).
Proof.
  unfold parseCodeBlock.
  pose proof (code_loop_ge (skipn (i + 1) lines) [] (i + 1)) as H.
  destruct (code_loop _ _ _) as [c e]. cbn [snd] in *. lia.
Qed.

Lemma parseChartBlock_next lines i :
  i < Z.to_nat (snd (parseChartBlock lines i) + 1).
Proof.
  unfold parseChartBlock.
  pose proof (fenced_lines_ge (skipn (i + 1) lines) [] (i + 1)) as H.
  destruct (fenced_lines _ _ _) as [c e]. cbn [snd] in *. lia.
Qed.

Lemma parseMindMapBlock_next lines i :
  i < Z.to_nat (snd (parseMindMapBlock lines i) + 1).
Proof.
  unfold parseMindMapBlock.
  pose proof (fenced_lines_ge (skipn (i + 1) lines) [] (i + 1)) as H.
  destruct (fenced_lines _ _ _) as [c e]. cbn [snd] in *. lia.
Qed.

Lemma parseBlockquote_next lines i :
  i < List.length lines ->
  Re.test Pat.quote (JS.trim (line_at lines i)) = true ->
  i < Z.to_nat (snd (parseBlockquote lines i) + 1).
Proof.
  intros Hi Hq. unfold parseBlockquote. rewrite (skipn_line_at _ _ Hi).
  cbn [quote_loop]. rewrite (quote_quote0 _ Hq).
  match goal with |- context [quote_loop ?r ?a ?j] =>
    pose proof (quote_loop_ge r a j) as H; destruct (quote_loop r a j) end.
  cbn [snd] in *. lia.
Qed.

Lemma parseBulletList_next lines i :
  i < List.length lines ->
  Re.test Pat.bullet (JS.trim (line_at lines i)) = true ->
  i < Z.to_nat (snd (parseBulletList lines i) + 1).
Proof.
  intros Hi Hq. unfold parseBulletList. rewrite (skipn_line_at _ _ Hi).
  cbn [bullet_loop]. rewrite Hq.
  match goal with |- context [bullet_loop ?r ?a ?j] =>
    pose proof (bullet_loop_ge r a j) as H; destruct (bullet_loop r a j) end.
  cbn [snd] in *. lia.
Qed.

Lemma parseNumberedList_next lines i :
  i < List.length lines ->
  Re.test Pat.numbered (JS.trim (line_at lines i)) = true ->
  i < Z.to_nat (snd (parseNumberedList lines i) + 1).
Proof.
  intros Hi Hq. unfold parseNumberedList. rewrite (skipn_line_at _ _ Hi).
  cbn [numbered_loop]. rewrite Hq.
  match goal with |- context [numbered_loop ?r ?a ?j] =>
    pose proof (numbered_loop_ge r a j) as H; destruct (numbered_loop r a j) end.
  cbn [snd] in *. lia.
Qed.

Lemma parseParagraph_next lines i :
  i < List.length lines ->
  paragraph_break (JS.trim (line_at lines i)) = false ->
  i < Z.to_nat (snd (parseParagraph lines i) + 1).
Proof.
  intros Hi Hq. unfold parseParagraph. rewrite (skipn_line_at _ _ Hi).
  cbn [paragraph_loop]. rewrite Hq.
  match goal with |- context [paragraph_loop ?r ?a ?j] =>
    pose proof (paragraph_loop_ge r a j) as H; destruct (paragraph_loop r a j) end.
  cbn [snd] in *. lia.
Qed.

Lemma parseParagraph_stall lines i :
  i < List.length lines ->
  paragraph_break (JS.trim (line_at lines i)) = true ->
  parseParagraph lines i = (Block.plain Text EmptyString, (Z.of_nat i - 1)%Z).
Proof.
  intros Hi Hq. unfold parseParagraph. rewrite (skipn_line_at _ _ Hi).
  cbn [paragraph_loop]. now rewrite Hq.
Qed.

(** One turn of the loop moves the cursor forward, unless the line stalls:
    then the turn appends an empty text block and leaves the cursor where
    it was. *)
Lemma dispatch_cursor lines st :
  Cursor.i st < List.length lines ->
  if stalls (line_at lines (Cursor.i st))
  then dispatch lines st
       = Cursor.mk (Cursor.i st)
           (Cursor.blocks st ++ [Block.plain Text EmptyString])
           (Cursor.title st) (Cursor.subtitle st) (Cursor.notes st)
           (Cursor.background st)
  else Cursor.i st < Cursor.i (dispatch lines st).
Proof.
  intros Hi. unfold dispatch, stalls, to_paragraph.
  set (trimmed := JS.trim (line_at lines (Cursor.i st))).
  destruct (JS.is_empty trimmed); [cbn; lia|].
  destruct (JS.startsWith trimmed "<!-- notes:" || JS.startsWith trimmed "<!--notes:").
  { cbn [negb andb Cursor.goto Cursor.i]. apply extractNotes_next. }
  destruct (JS.startsWith trimmed "<!-- bg:" || JS.startsWith trimmed "<!--bg:");
    [cbn; lia|].
  destruct (Re.test Pat.h1 trimmed).
  { destruct (JS.truthy (Cursor.title st)); cbn; lia. }
  destruct (Re.test Pat.h2 trimmed).
  { destruct (JS.truthy (Cursor.title st)), (JS.truthy (Cursor.subtitle st));
      cbn; lia. }
  destruct (Re.test Pat.h3 trimmed); [cbn; lia|].
  destruct (Re.test Pat.fence trimmed).
  { cbn [negb andb]. unfold dispatchFence, consume.
    destruct (_ =? "chart")%string;
      [cbn [Cursor.goto Cursor.i]; apply parseChartBlock_next|].
    destruct (_ =? "mindmap")%string;
      [cbn [Cursor.goto Cursor.i]; apply parseMindMapBlock_next|].
    cbn [Cursor.goto Cursor.i]; apply parseCodeBlock_next. }
  unfold dispatchContent.
  destruct (Pat.stock trimmed) as [[query orient]|]; [cbn; lia|].
  destruct (Pat.ai trimmed) as [[style prompt]|]; [cbn; lia|].
  destruct (Pat.image trimmed) as [[alt_text src]|]; [cbn; lia|].
  destruct (Re.test Pat.quote trimmed) eqn:Hq.
  { cbn [negb andb isSome]. unfold consume. cbn [Cursor.goto Cursor.i].
    now apply parseBlockquote_next. }
  destruct (Re.test Pat.bullet trimmed) eqn:Hb.
  { cbn [negb andb isSome]. unfold consume. cbn [Cursor.goto Cursor.i].
    now apply parseBulletList_next. }
  destruct (Re.test Pat.numbered trimmed) eqn:Hn.
  { cbn [negb andb isSome]. unfold consume. cbn [Cursor.goto Cursor.i].
    now apply parseNumberedList_next. }
  cbn [negb andb isSome orb].
  destruct (paragraph_break trimmed) eqn:Hbr.
  - rewrite (parseParagraph_stall _ _ Hi Hbr). unfold consume, Cursor.goto, Cursor.push.
    cbn [fst snd Cursor.i Cursor.blocks Cursor.title Cursor.subtitle Cursor.notes
         Cursor.background].
    f_equal. lia.
  - unfold consume. cbn [Cursor.goto Cursor.i]. now apply parseParagraph_next.
Qed.

(** With the cursor on a stalling line the loop never ends. *)
Lemma slide_loop_stalls fuel lines st :
  Cursor.i st < List.length lines ->
  stalls (line_at lines (Cursor.i st)) = true ->
  slide_loop fuel lines st = None.
Proof.
  revert st; induction fuel as [|fuel IH]; intros st Hi Hs; cbn [slide_loop];
    pose proof Hi as Hlt; apply Nat.ltb_lt in Hlt; rewrite Hlt; [reflexivity|].
  pose proof (dispatch_cursor lines st Hi) as H. rewrite Hs in H.
  apply IH; rewrite H; assumption.
Qed.

(** Without a stalling line the loop ends within as many turns as there
    are lines ahead of the cursor. *)
Lemma slide_loop_ends fuel lines st :
  Forall (fun l => stalls l = false) lines ->
  List.length lines - Cursor.i st <= fuel ->
  exists st', slide_loop fuel lines st = Some st'.
Proof.
  intros Hall. revert st; induction fuel as [|fuel IH]; intros st Hf;
    cbn [slide_loop]; destruct (Cursor.i st <? List.length lines) eqn:Hi;
    try (now exists st).
  - apply Nat.ltb_lt in Hi. lia.
  - apply Nat.ltb_lt in Hi. apply IH.
    pose proof (dispatch_cursor lines st Hi) as H.
    rewrite Forall_forall in Hall.
    rewrite (Hall (line_at lines (Cursor.i st))) in H
      by (apply nth_In; assumption).
    lia.
Qed.

(** More fuel does not change a result. *)
Lemma slide_loop_more fuel extra lines st st' :
  slide_loop fuel lines st = Some st' ->
  slide_loop (fuel + extra) lines st = Some st'.
Proof.
  revert st; induction fuel as [|fuel IH]; intros st; cbn [slide_loop Nat.add].
  - destruct (Cursor.i st <? List.length lines) eqn:Hi; [discriminate|].
    intros H. destruct extra; cbn [slide_loop]; now rewrite Hi.
  - destruct (Cursor.i st <? List.length lines); [apply IH|tauto].
Qed.

(* ================================================================== *)
(** * What segmentation keeps *)
(* ================================================================== *)

(** The body lines without the separators that close a chunk: a line goes
    when it is a rule line and the number of fence lines before it is even.
    [pre] holds the lines already read. *)
Fixpoint content_lines (pre body : list string) : list string :=
  match body with
  | [] => []
  | l :: rest =>
      (if rule_line l && Nat.even (count_fences pre) then [] else [l])
      ++ content_lines (pre ++ [l]) rest
  end.

Lemma content_lines_snoc pre body l :
  content_lines pre (body ++ [l])
  = content_lines pre body
    ++ (if rule_line l && Nat.even (count_fences (pre ++ body)) then [] else [l]).
Proof.
  revert pre; induction body as [|b body IH]; intros pre; cbn [content_lines app].
  - now rewrite !app_nil_r.
  - rewrite IH, <- !app_assoc. reflexivity.
Qed.

Lemma content_lines_incl pre body l :
  In l (content_lines pre body) -> In l body.
Proof.
  revert pre; induction body as [|b body IH]; intros pre; cbn [content_lines];
    [tauto|].
  rewrite in_app_iff. intros [H|H].
  - destruct (rule_line b && Nat.even (count_fences pre)); [destruct H|].
    destruct H as [->|[]]. now left.
  - right. exact (IH _ H).
Qed.

Lemma content_lines_length pre body :
  List.length (content_lines pre body) <= List.length body.
Proof.
  revert pre; induction body as [|b body IH]; intros pre; cbn [content_lines];
    [lia|].
  rewrite length_app. specialize (IH (pre ++ [b])).
  destruct (rule_line b && Nat.even (count_fences pre)); simpl; lia.
Qed.

(** The state of the segmenter after the lines [pre]: the chunks closed so
    far and the current one hold the content lines, in order, and every
    closed chunk but possibly the first is non-empty. *)
Lemma split_state pre :
  let st := fold_left split_step pre Split.init in
  List.concat (Split.chunks st) ++ Split.current st = content_lines [] pre
  /\ Forall (fun chunk => chunk <> []) (tl (Split.chunks st)).
Proof.
  induction pre as [|l pre IH] using rev_ind; [now split|].
  rewrite fold_left_app. cbn [fold_left].
  pose proof (split_parity pre) as Hpar. cbv zeta in IH.
  set (st := fold_left split_step pre Split.init) in *.
  destruct IH as (Hc & Hne). cbv zeta.
  rewrite content_lines_snoc, <- Hc. cbn [app].
  unfold split_step. rewrite separator_rule_line, Hpar, Nat.negb_odd.
  destruct (rule_line l && Nat.even (count_fences pre)).
  - destruct (0 <? List.length (Split.current st)) eqn:Hlen; cbn [orb].
    + cbn [Split.chunks Split.current]. split.
      * rewrite concat_app. cbn [List.concat]. now rewrite !app_nil_r.
      * destruct (Split.chunks st) as [|c0 cs]; [constructor|].
        cbn [app tl] in *. apply Forall_app. split; [assumption|].
        constructor; [|constructor]. intros E. rewrite E in Hlen. discriminate.
    + apply Nat.ltb_ge in Hlen.
      assert (Hcur : Split.current st = []) by
        (destruct (Split.current st); [reflexivity|simpl in Hlen; lia]).
      destruct (List.length (Split.chunks st) =? 0) eqn:Hch.
      * cbn [Split.chunks Split.current]. rewrite Hcur. split.
        -- rewrite concat_app. cbn [List.concat]. now rewrite !app_nil_r.
        -- destruct (Split.chunks st); [constructor|discriminate].
      * rewrite Hcur, !app_nil_r. now split.
  - cbn [Split.chunks Split.current]. split; [now rewrite app_assoc|assumption].
Qed.

(** Segmentation loses nothing but the closing separators: the chunks,
    put end to end, are the content lines of the body, in order. *)
Lemma segment_concat lines startIndex :
  List.concat (segment lines startIndex)
  = content_lines [] (skipn startIndex lines).
Proof.
  unfold segment.
  destruct (split_state (skipn startIndex lines)) as (Hc & _).
  set (st := fold_left split_step (skipn startIndex lines) Split.init) in *.
  rewrite <- Hc.
  destruct (0 <? List.length (Split.current st)) eqn:Hlen.
  - rewrite concat_app. cbn [List.concat]. now rewrite app_nil_r.
  - apply Nat.ltb_ge in Hlen.
    destruct (Split.current st); [now rewrite app_nil_r|simpl in Hlen; lia].
Qed.

Lemma segment_tail_nonempty lines startIndex :
  Forall (fun chunk => chunk <> []) (tl (segment lines startIndex)).
Proof.
  unfold segment.
  destruct (split_state (skipn startIndex lines)) as (_ & Hne).
  set (st := fold_left split_step (skipn startIndex lines) Split.init) in *.
  destruct (0 <? List.length (Split.current st)) eqn:Hlen; [|assumption].
  destruct (Split.chunks st) as [|c0 cs]; [constructor|].
  cbn [app tl] in *. apply Forall_app. split; [assumption|].
  constructor; [|constructor]. intros E. rewrite E in Hlen. discriminate.
Qed.

Lemma In_skipn {X} (x : X) n l : In x (skipn n l) -> In x l.
Proof.
  revert l; induction n as [|n IH]; intros l; [tauto|].
  destruct l as [|y l]; cbn [skipn]; [tauto|]. intros H. right. now apply IH.
Qed.

Lemma chunk_lines lines startIndex chunk :
  In chunk (segment lines startIndex) ->
  (forall l, In l chunk -> In l lines)
  /\ List.length chunk <= List.length lines.
Proof.
  intros Hin. pose proof (segment_concat lines startIndex) as Hc. split.
  - intros l Hl. apply (In_skipn l startIndex).
    apply (content_lines_incl []). rewrite <- Hc.
    apply in_concat. now exists chunk.
  - pose proof (content_lines_length [] (skipn startIndex lines)) as Hlen.
    rewrite <- Hc in Hlen.
    assert (Hle : List.length chunk <= List.length (List.concat (segment lines startIndex))).
    { clear -Hin. induction (segment lines startIndex) as [|c cs IH];
        [destruct Hin|].
      cbn [List.concat]. rewrite length_app. destruct Hin as [->|Hin]; [lia|].
      specialize (IH Hin). lia. }
    rewrite length_skipn in Hlen. lia.
Qed.

(** X1.  Segmentation.  The chunks of the segmenter, put end to end, are the
    body lines without the separators that closed a chunk (rule lines read
    at even fence parity), in order; and every chunk but possibly the first
    is non-empty. *)
Theorem segment_keeps_content lines startIndex :
  List.concat (segment lines startIndex)
  = content_lines [] (skipn startIndex lines)
  /\ Forall (fun chunk => chunk <> []) (tl (segment lines startIndex)).
Proof. split; [apply segment_concat|apply segment_tail_nonempty]. Qed.

(* ================================================================== *)
(** * Termination of [parse] away from stalling lines *)
(* ================================================================== *)

Lemma parseSlide_ends fuel lines isFirstSlide :
  Forall (fun l => stalls l = false) lines ->
  List.length lines <= fuel ->
  exists s, parseSlide fuel lines isFirstSlide = Some s.
Proof.
  intros Hall Hlen. unfold parseSlide.
  destruct (slide_loop_ends fuel lines
              (Cursor.mk (skip_blank lines 0) [] None None None None) Hall)
    as (st & ->); [cbn [Cursor.i]; lia|].
  eexists; reflexivity.
Qed.

Lemma parseSlides_ends fuel chunks i meta :
  Forall (fun chunk => Forall (fun l => stalls l = false) chunk
                       /\ List.length chunk <= fuel) chunks ->
  exists slides, parseSlides fuel chunks i meta = Some slides.
Proof.
  revert i; induction chunks as [|chunk rest IH]; intros i H; cbn [parseSlides].
  - now exists [].
  - inversion H as [|? ? (Hc & Hl) Hrest]; subst.
    destruct (parseSlide_ends fuel chunk
                ((i =? 0) && negb (hasFrontmatterTitle meta)) Hc Hl) as (s & ->).
    destruct (IH (S i) Hrest) as (ss & ->). eexists; reflexivity.
Qed.

(** X2.  Termination.  When no line of the input stalls the dispatcher (no
    line reaches the paragraph parser only to stop it at once), [parse]
    returns a presentation, within as many turns per slide as the input has
    lines. *)
Theorem parse_returns input :
  Forall (fun l => stalls l = false) (JS.split "010" input) ->
  exists p, parse (List.length (JS.split "010" input)) input = Some p.
Proof.
  intros Hall. unfold parse.
  destruct (parseFrontmatter (JS.split "010" input)) as [meta bodyStart].
  set (lines := JS.split "010" input) in *.
  destruct (parseSlides_ends (List.length lines)
              (splitIntoSlides lines bodyStart) 0 meta) as (slides & ->);
    [|eexists; reflexivity].
  rewrite Forall_forall. intros chunk Hin.
  unfold splitIntoSlides in Hin. apply filter_In in Hin as [Hin _].
  destruct (chunk_lines _ _ _ Hin) as (Hl & Hlen). split; [|assumption].
  rewrite Forall_forall in *. intros l Hlc. apply Hall. now apply Hl.
Qed.

(** The minimal input of the test suite: a heading, a blank line, a
    paragraph. *)
Lemma parse_returns_example :
  exists p, parse 3 (text ["# Hello"; ""; "World"]) = Some p.
Proof.
  refine (parse_returns (text ["# Hello"; ""; "World"]) _).
  repeat constructor.
Defined.

(** The heading break of the paragraph parser is one of the three heading
    rules of the dispatcher. *)
Lemma plus_space_val s :
  Re.plus JS.is_space Re.rest_of s
  = match s with
    | String c r => if JS.is_space c then Some (JS.trimStart r) else None
    | EmptyString => None
    end.
Proof.
  unfold Re.plus. destruct s as [|c s]; [reflexivity|].
  destruct (JS.is_space c); [|reflexivity].
  change (fun (m : string) rest => Re.rest_of (String c m) rest) with Re.rest_of.
  apply star_space_rest.
Qed.

Ltac hash_cases :=
  repeat match goal with
         | |- context [Ascii.eqb ?c "#"] =>
             destruct (Ascii.eqb_spec c "#") as [->|]
         end;
  cbn [andb orb negb];
  repeat match goal with
         | |- context [JS.is_space ?c] =>
             first [ change (JS.is_space c) with false
                   | destruct (JS.is_space c) ]
         end;
  reflexivity.

Lemma h123_headings s :
  Re.test Pat.h123 s
  = Re.test Pat.h1 s || Re.test Pat.h2 s || Re.test Pat.h3 s.
Proof.
  unfold Pat.h123, Pat.h1, Pat.h2, Pat.h3, Re.test, JS.is_char.
  destruct s as [|c1 [|c2 [|c3 [|c4 s]]]];
    cbn [Re.lit Re.upto]; cbn beta; rewrite ?plus_space_val; hash_cases.
Qed.

(** The stalling lines, by shape: the trimmed line reaches the paragraph
    parser and opens an image, opens a comment, or is a rule. *)
Lemma stalls_shape line :
  stalls line
  = to_paragraph (JS.trim line)
    && (Re.test Pat.image_open (JS.trim line)
        || Re.test Pat.comment_open (JS.trim line)
        || Re.test Pat.separator (JS.trim line)).
Proof.
  unfold stalls. destruct (to_paragraph (JS.trim line)) eqn:Hp; [|reflexivity].
  cbn [andb]. unfold paragraph_break. rewrite h123_headings.
  unfold to_paragraph in Hp.
  repeat match type of Hp with
         | _ && _ = true => apply andb_true_iff in Hp as [Hp ?]
         end.
  repeat match goal with
         | H : negb _ = true |- _ => apply negb_true_iff in H
         end.
  repeat match goal with
         | H : _ = false |- _ => rewrite H; clear H
         end.
  reflexivity.
Qed.

(* ================================================================== *)
(** * Blank documents *)
(* ================================================================== *)

Lemma trimStart_all_space s : all JS.is_space s = true -> JS.trimStart s = EmptyString.
Proof.
  induction s as [|c s IH]; [reflexivity|]. cbn. intros H.
  apply andb_true_iff in H as [Hc Hs]. rewrite Hc. now apply IH.
Qed.

Lemma trim_all_space s : all JS.is_space s = true -> JS.trim s = EmptyString.
Proof. intros H. unfold JS.trim. now rewrite trimStart_all_space. Qed.

Lemma split_all_space s :
  all JS.is_space s = true ->
  Forall (fun l => all JS.is_space l = true) (JS.split "010" s).
Proof.
  induction s as [|c s IH]; intros H; cbn [JS.split].
  - repeat constructor.
  - cbn in H. apply andb_true_iff in H as [Hc Hs]. specialize (IH Hs).
    destruct (Ascii.eqb c "010").
    + constructor; [reflexivity|assumption].
    + destruct (JS.split "010" s) as [|h t]; [repeat constructor; cbn; now rewrite Hc|].
      inversion IH; subst. constructor; [cbn; now rewrite Hc|assumption].
Qed.

Lemma split_nonempty sep s : JS.split sep s <> [].
Proof.
  destruct s as [|c s]; cbn; [discriminate|].
  destruct (Ascii.eqb c sep); [discriminate|].
  destruct (JS.split sep s); discriminate.
Qed.

(** X3.  Blank documents.  An input made of white space only (line feeds
    included) gives the document with the default metadata and no slide,
    whatever the fuel. *)
Theorem blank_document fuel input :
  all JS.is_space input = true ->
  parse fuel input = Some (Presentation.mk default_meta []).
Proof.
  intros H. pose proof (split_all_space _ H) as Hl. unfold parse.
  set (lines := JS.split "010" input) in *.
  assert (Hfm : parseFrontmatter lines = (default_meta, 0)).
  { unfold parseFrontmatter.
    destruct lines as [|l0 ls] eqn:E; [reflexivity|].
    inversion Hl; subst. cbn [line_at nth].
    rewrite (trim_all_space l0) by assumption. cbn [String.eqb negb].
    now rewrite orb_true_r. }
  rewrite Hfm.
  assert (Hsp : splitIntoSlides lines 0 = []).
  { unfold splitIntoSlides.
    assert (Hnone : forall chunk, In chunk (segment lines 0) -> has_content chunk = false).
    { intros chunk Hin. destruct (chunk_lines _ _ _ Hin) as (Hsub & _).
      unfold has_content. apply not_true_is_false. intros Hex.
      apply existsb_exists in Hex as (l & Hlin & Hne).
      rewrite Forall_forall in Hl.
      rewrite (trim_all_space l) in Hne by (apply Hl, Hsub, Hlin). discriminate. }
    induction (segment lines 0) as [|c cs IH]; [reflexivity|].
    cbn [filter]. rewrite (Hnone c) by now left.
    apply IH. intros chunk Hin. apply Hnone. now right. }
  rewrite Hsp. reflexivity.
Qed.

Lemma blank_document_example :
  parse 0 (text ["  "; ""; "   "]) = Some (Presentation.mk default_meta []).
Proof. exact (blank_document 0 (text ["  "; ""; "   "]) eq_refl). Defined.

(* ================================================================== *)
(** * The extent of the frontmatter *)
(* ================================================================== *)

Lemma find_closing_none ls i :
  Forall (fun l => JS.trim l <> "---"%string) ls -> find_closing ls i = None.
Proof.
  revert i; induction ls as [|l ls IH]; intros i H; cbn [find_closing];
    [reflexivity|].
  inversion H; subst.
  destruct (String.eqb_spec (JS.trim l) "---"); [contradiction|]. now apply IH.
Qed.

Lemma no_frontmatter lines :
  JS.trim (line_at lines 0) <> "---"%string
  \/ Forall (fun l => JS.trim l <> "---"%string) (skipn 1 lines) ->
  parseFrontmatter lines = (default_meta, 0).
Proof.
  intros H. unfold parseFrontmatter.
  destruct (List.length lines <? 2); [reflexivity|]. cbn [orb].
  destruct (String.eqb_spec (JS.trim (line_at lines 0)) "---") as [E|];
    [|reflexivity].
  cbn [negb]. destruct H as [H|H]; [contradiction|].
  now rewrite (find_closing_none _ _ H).
Qed.

(** X4.  No frontmatter.  When the first line is not the rule, or no later
    line is, there is no frontmatter: the metadata are the default ones
    and the body starts at line 0, whatever keys the lines hold. *)
Theorem frontmatter_absent lines :
  JS.trim (line_at lines 0) <> "---"%string
  \/ Forall (fun l => JS.trim l <> "---"%string) (skipn 1 lines) ->
  parseFrontmatter lines = (default_meta, 0).
Proof. apply no_frontmatter. Qed.

Lemma frontmatter_absent_example :
  parseFrontmatter ["---"; "title: Lost"; "# Slide"] = (default_meta, 0).
Proof.
  apply frontmatter_absent. right. cbn [skipn].
  repeat constructor; discriminate.
Defined.

(** X5.  A frontmatter block.  With the rule on line 0, interior lines none
    of which trims to the rule, and a closing rule, the metadata are the
    interior lines folded from the default metadata by the key switch, in
    order, and the body starts right after the closing rule. *)
Theorem frontmatter_block interior body :
  forallb (fun l => negb (JS.trim l =? "---")%string) interior = true ->
  parseFrontmatter ("---" :: interior ++ "---" :: body)
  = (fold_left frontmatterLine interior default_meta, List.length interior + 2).
Proof. apply parseFrontmatter_block. Qed.

Lemma frontmatter_block_example :
  parseFrontmatter ["---"; "title: A"; "Title: B"; "---"; "# S"]
  = (Meta.set_title "B" default_meta, 4).
Proof. exact (frontmatter_block ["title: A"; "Title: B"] ["# S"] eq_refl). Defined.

(** ** Values *)

Lemma quote_not_space c : Pat.is_quote c = true -> JS.is_space c = false.
Proof.
  unfold Pat.is_quote. intros H. apply orb_true_iff in H as [H|H];
    apply Ascii.eqb_eq in H; now subst.
Qed.

Lemma trimEnd_snoc a c :
  JS.is_space c = false ->
  JS.trimEnd (a ++ String c EmptyString)%string = (a ++ String c EmptyString)%string.
Proof.
  intros Hc. induction a as [|x a IH]; cbn [append JS.trimEnd].
  - now rewrite Hc.
  - rewrite IH. destruct a; cbn [append JS.is_empty]; now rewrite andb_false_r.
Qed.

Lemma strip_last_quote_snoc v q :
  Pat.is_quote q = true ->
  Pat.strip_last_quote (v ++ String q EmptyString)%string = v.
Proof.
  intros Hq. induction v as [|c v IH].
  - simpl. now rewrite Hq.
  - destruct v as [|d v].
    + simpl in *. now rewrite Hq.
    + change (Pat.strip_last_quote (String c (String d v) ++ String q ""))
        with (String c (Pat.strip_last_quote (String d v ++ String q ""))).
      now rewrite IH.
Qed.

(** A title line that is already trimmed: the value is what follows the
    first colon. *)
Lemma frontmatterLine_title meta tail :
  JS.trim ("title:" ++ tail) = ("title:" ++ tail)%string ->
  frontmatterLine meta ("title:" ++ tail)
  = Meta.set_title (Pat.strip_quotes (JS.trim tail)) meta.
Proof. intros H. unfold frontmatterLine. rewrite H. reflexivity. Qed.

(** X6.  Quoted values.  A title line whose value stands between two quote
    characters (double or single, not necessarily the same) gives exactly
    the text between them: only the first colon splits the line, and the
    white space inside the quotes is kept. *)
Theorem frontmatter_quoted_title meta ws q q' v :
  all JS.is_space ws = true ->
  Pat.is_quote q = true -> Pat.is_quote q' = true ->
  frontmatterLine meta
    ("title:" ++ ws ++ String q (v ++ String q' EmptyString))%string
  = Meta.set_title v meta.
Proof.
  intros Hws Hq Hq'.
  set (tail := (ws ++ String q (v ++ String q' EmptyString))%string).
  assert (Htrim : JS.trim ("title:" ++ tail) = ("title:" ++ tail)%string).
  { unfold JS.trim. change (JS.trimStart ("title:" ++ tail)) with ("title:" ++ tail)%string.
    unfold tail.
    assert (E : (ws ++ String q (v ++ String q' ""))%string
                = ((ws ++ String q v) ++ String q' "")%string)
      by (now rewrite string_app_assoc).
    rewrite E.
    change ("title:" ++ (ws ++ String q v) ++ String q' "")%string
      with (("title:" ++ ws ++ String q v) ++ String q' "")%string.
    apply trimEnd_snoc. now apply quote_not_space. }
  rewrite (frontmatterLine_title meta tail Htrim).
  f_equal. unfold tail, JS.trim.
  rewrite (trimStart_spaces ws (String q (v ++ String q' "")) Hws)
    by (cbn; now rewrite (quote_not_space _ Hq)).
  change (String q (v ++ String q' "")) with (String q v ++ String q' "")%string.
  rewrite (trimEnd_snoc (String q v) q' (quote_not_space _ Hq')).
  cbn [append Pat.strip_quotes]. rewrite Hq.
  now apply strip_last_quote_snoc.
Qed.

Lemma frontmatter_quoted_title_example :
  frontmatterLine default_meta "title: 'Q3: results '"
  = Meta.set_title "Q3: results " default_meta.
Proof.
  exact (frontmatter_quoted_title default_meta " " "'" "'" "Q3: results "
           eq_refl eq_refl eq_refl).
Defined.

(* ================================================================== *)
(** * Fenced blocks, paragraphs and numbered lists, line by line *)
(* ================================================================== *)

Lemma skipn_pre {X} (pre l : list X) : skipn (List.length pre) (pre ++ l) = l.
Proof. induction pre as [|x pre IH]; [reflexivity|exact IH]. Qed.

Lemma skipn_pre1 {X} (pre : list X) x l :
  skipn (List.length pre + 1) (pre ++ x :: l) = l.
Proof.
  replace (pre ++ x :: l) with ((pre ++ [x]) ++ l) by now rewrite <- app_assoc.
  replace (List.length pre + 1) with (List.length (pre ++ [x]))
    by (rewrite length_app; reflexivity).
  apply skipn_pre.
Qed.

Lemma line_at_pre pre l rest : line_at (pre ++ l :: rest) (List.length pre) = l.
Proof. unfold line_at. apply nth_middle. Qed.

Lemma code_loop_run code tail acc j :
  Forall (fun l => Re.test Pat.fence_close (JS.trim l) = false) code ->
  code_loop (code ++ tail) acc j
  = code_loop tail (acc ++ code) (j + List.length code).
Proof.
  revert acc j; induction code as [|l code IH]; intros acc j H; cbn [app].
  - now rewrite app_nil_r, Nat.add_0_r.
  - inversion H as [|? ? Hl Hrest]; subst. cbn [code_loop]. rewrite Hl.
    rewrite (IH _ _ Hrest), <- app_assoc. cbn [List.length app].
    now replace (S j + List.length code) with (j + S (List.length code)) by lia.
Qed.

Lemma fenced_lines_run data tail acc j :
  Forall (fun l => Re.test Pat.fence_close (JS.trim l) = false) data ->
  fenced_lines (data ++ tail) acc j
  = fenced_lines tail (acc ++ data) (j + List.length data).
Proof.
  revert acc j; induction data as [|l data IH]; intros acc j H; cbn [app].
  - now rewrite app_nil_r, Nat.add_0_r.
  - inversion H as [|? ? Hl Hrest]; subst. cbn [fenced_lines]. rewrite Hl.
    rewrite (IH _ _ Hrest), <- app_assoc. cbn [List.length app].
    now replace (S j + List.length data) with (j + S (List.length data)) by lia.
Qed.

Lemma paragraph_loop_run ps tail acc j :
  Forall (fun l => paragraph_break (JS.trim l) = false) ps ->
  paragraph_loop (ps ++ tail) acc j
  = paragraph_loop tail (acc ++ map JS.trim ps) (j + List.length ps).
Proof.
  revert acc j; induction ps as [|l ps IH]; intros acc j H; cbn [app map].
  - now rewrite app_nil_r, Nat.add_0_r.
  - inversion H as [|? ? Hl Hrest]; subst. cbn [paragraph_loop]. rewrite Hl.
    rewrite (IH _ _ Hrest), <- app_assoc. cbn [List.length app].
    now replace (S j + List.length ps) with (j + S (List.length ps)) by lia.
Qed.

Lemma code_block_run pre opening code closing rest :
  Forall (fun l => Re.test Pat.fence_close (JS.trim l) = false) code ->
  Re.test Pat.fence_close (JS.trim closing) = true ->
  let block :=
    Block.mk Code (JS.join nl code) None None
      (JS.or_undefined (JS.trim (Re.strip Pat.fence (JS.trim opening))))
      None None None None None None in
  parseCodeBlock (pre ++ opening :: code ++ closing :: rest) (List.length pre)
  = (block, Z.of_nat (List.length pre + List.length code + 1))
  /\ parseCodeBlock (pre ++ opening :: code) (List.length pre)
     = (block, Z.of_nat (List.length pre + List.length code)).
Proof.
  intros Hcode Hclose block. unfold parseCodeBlock. split.
  - rewrite line_at_pre, skipn_pre1, (code_loop_run _ _ _ _ Hcode).
    cbn [code_loop app]. rewrite Hclose. unfold block.
    now replace (List.length pre + 1 + List.length code)
      with (List.length pre + List.length code + 1) by lia.
  - rewrite line_at_pre, skipn_pre1.
    rewrite <- (app_nil_r code) at 1. rewrite (code_loop_run _ _ _ _ Hcode).
    cbn [code_loop app]. unfold block. f_equal. lia.
Qed.

(** X7.  Code blocks.  The code parser, started on an opening fence, takes
    the lines up to the first closing fence verbatim, newline-joined, and
    ends on the closing fence; without a closing fence it takes all the
    lines left and ends on the last one.  The language is the trimmed text
    after the backticks of the opening fence, absent when empty. *)
Theorem code_block_verbatim pre opening code closing rest :
  Forall (fun l => Re.test Pat.fence_close (JS.trim l) = false) code ->
  Re.test Pat.fence_close (JS.trim closing) = true ->
  let block :=
    Block.mk Code (JS.join nl code) None None
      (JS.or_undefined (JS.trim (Re.strip Pat.fence (JS.trim opening))))
      None None None None None None in
  parseCodeBlock (pre ++ opening :: code ++ closing :: rest) (List.length pre)
  = (block, Z.of_nat (List.length pre + List.length code + 1))
  /\ parseCodeBlock (pre ++ opening :: code) (List.length pre)
     = (block, Z.of_nat (List.length pre + List.length code)).
Proof. apply code_block_run. Qed.

Lemma code_block_verbatim_example :
  parseCodeBlock ["# T"; "```python"; "a = 1"; "---"; "```"; "after"] 1
  = (Block.mk Code (JS.join nl ["a = 1"; "---"]) None None (Some "python")
       None None None None None None, 4%Z).
Proof.
  exact (proj1 (code_block_verbatim ["# T"] "```python" ["a = 1"; "---"] "```"
                  ["after"] ltac:(repeat constructor) eq_refl)).
Defined.

(** X8.  Chart and mind-map blocks.  Both take the lines between the opening
    fence and the first closing fence, hand exactly those lines to the
    mini-language parser, keep them newline-joined as content, and end on
    the closing fence; without a closing fence they take all the lines
    left and end one index past the last line. *)
Theorem data_block_lines pre opening data closing rest :
  Forall (fun l => Re.test Pat.fence_close (JS.trim l) = false) data ->
  Re.test Pat.fence_close (JS.trim closing) = true ->
  let chart :=
    Block.mk Chart (JS.join nl data) None None None None None
      (Some (parseChartData data)) None None None in
  let mindmap :=
    Block.mk Mindmap (JS.join nl data) None None None None None
      None (Some (parseMindMapData data)) None None in
  let close_index := Z.of_nat (List.length pre + List.length data + 1) in
  parseChartBlock (pre ++ opening :: data ++ closing :: rest) (List.length pre)
  = (chart, close_index)
  /\ parseChartBlock (pre ++ opening :: data) (List.length pre)
     = (chart, close_index)
  /\ parseMindMapBlock (pre ++ opening :: data ++ closing :: rest) (List.length pre)
     = (mindmap, close_index)
  /\ parseMindMapBlock (pre ++ opening :: data) (List.length pre)
     = (mindmap, close_index).
Proof.
  intros Hdata Hclose chart mindmap close_index.
  assert (Hclosed :
    fenced_lines (data ++ closing :: rest) [] (List.length pre + 1)
    = (data, List.length pre + List.length data + 1)).
  { rewrite (fenced_lines_run _ _ _ _ Hdata). cbn [fenced_lines app].
    rewrite Hclose. f_equal. lia. }
  assert (Hopen :
    fenced_lines data [] (List.length pre + 1)
    = (data, List.length pre + List.length data + 1)).
  { rewrite <- (app_nil_r data) at 1. rewrite (fenced_lines_run _ _ _ _ Hdata).
    cbn [fenced_lines app]. f_equal. lia. }
  unfold parseChartBlock, parseMindMapBlock.
  rewrite !skipn_pre1, Hclosed, Hopen. repeat split.
Qed.

Lemma data_block_lines_example :
  parseChartBlock ["```chart"; "Q1: 10"; "```"] 0
  = (Block.mk Chart "Q1: 10" None None None None None
       (Some (ChartData.mk Bar None [ChartItem.mk "Q1" 10])) None None None, 2%Z).
Proof.
  exact (proj1 (data_block_lines [] "```chart" ["Q1: 10"] "```" []
                  ltac:(repeat constructor) eq_refl)).
Defined.

(** X9.  Paragraphs.  The paragraph parser takes the lines up to the first
    line whose trimmed form is blank or structural (or up to the end of
    the chunk), trims each and joins them with single spaces; it ends on the
    last line it took. *)
Theorem paragraph_lines pre ps stop rest :
  Forall (fun l => paragraph_break (JS.trim l) = false) ps ->
  paragraph_break (JS.trim stop) = true ->
  let block := Block.plain Text (JS.join " " (map JS.trim ps)) in
  let endIndex := (Z.of_nat (List.length pre + List.length ps) - 1)%Z in
  parseParagraph (pre ++ ps ++ stop :: rest) (List.length pre) = (block, endIndex)
  /\ parseParagraph (pre ++ ps) (List.length pre) = (block, endIndex).
Proof.
  intros Hps Hstop block endIndex. unfold parseParagraph. split.
  - rewrite skipn_pre, (paragraph_loop_run _ _ _ _ Hps).
    cbn [paragraph_loop app]. now rewrite Hstop.
  - rewrite skipn_pre. rewrite <- (app_nil_r ps) at 1.
    now rewrite (paragraph_loop_run _ _ _ _ Hps).
Qed.

Lemma paragraph_lines_example :
  parseParagraph ["# T"; " one "; "two"; ""; "three"] 1
  = (Block.plain Text "one two", 2%Z).
Proof.
  exact (proj1 (paragraph_lines ["# T"] [" one "; "two"] "" ["three"]
                  ltac:(repeat constructor) eq_refl)).
Defined.

Lemma trimEnd_app_fixed a t :
  JS.trimEnd t = t -> t <> EmptyString ->
  JS.trimEnd (a ++ t)%string = (a ++ t)%string.
Proof.
  intros Ht Hne. induction a as [|x a IH]; cbn [append]; [assumption|].
  cbn [JS.trimEnd]. rewrite IH.
  assert (E : JS.is_empty (a ++ t) = false)
    by (destruct a; [destruct t; [congruence|reflexivity]|reflexivity]).
  now rewrite E, andb_false_r.
Qed.

(** A numbered line: a numeral, a point, a space and the text. *)
Definition numbered_line (nt : string * string) : string :=
  (fst nt ++ ". " ++ snd nt)%string.

Definition numeral (n : string) : Prop :=
  n <> EmptyString /\ all JS.is_digit n = true.

Lemma numbered_line_match n t :
  numeral n -> clean t ->
  JS.trim (numbered_line (n, t)) = numbered_line (n, t)
  /\ Pat.numbered (numbered_line (n, t)) = Some t.
Proof.
  intros (Hne & Hn) Hc. unfold numbered_line. cbn [fst snd].
  destruct n as [|d n]; [congruence|]. cbn in Hn.
  apply andb_true_iff in Hn as [Hd Hn]. split.
  - unfold JS.trim. rewrite trimStart_stops
      by (cbn; now rewrite (digit_not_space _ Hd)).
    rewrite <- string_app_assoc. apply trimEnd_app_fixed; apply Hc.
  - unfold Pat.numbered. cbn [append].
    apply (plus_hit JS.is_digit); [assumption|assumption|reflexivity|].
    cbv beta. cbn [append Re.lit]. change (Ascii.eqb "." ".") with true.
    cbn iota. rewrite plus_space_val.
    change (JS.is_space " ") with true. cbn iota.
    f_equal. apply Hc.
Qed.

Lemma numbered_loop_lines nts items i :
  Forall (fun nt => numeral (fst nt) /\ clean (snd nt)) nts ->
  numbered_loop (map numbered_line nts) items i
  = (items ++ map snd nts, i + List.length nts).
Proof.
  revert items i; induction nts as [|[n t] nts IH]; intros items i H;
    cbn [map numbered_loop].
  - now rewrite app_nil_r, Nat.add_0_r.
  - inversion H as [|? ? (Hn & Hc) Hrest]; subst. cbn [fst snd] in *.
    destruct (numbered_line_match n t Hn Hc) as (Htrim & Hm).
    rewrite Htrim. unfold Re.test, Re.strip. rewrite Hm.
    rewrite (IH _ _ Hrest), <- app_assoc. cbn [List.length app fst snd].
    f_equal. lia.
Qed.

(** X10.  Numbered lists.  The numerals of a numbered list are discarded:
    lines made of any numeral, a point, a space and a text (not empty,
    without white space at its ends) give the texts as items, in order,
    whatever the numerals are. *)
Theorem numbered_items_drop_numerals nts :
  Forall (fun nt => numeral (fst nt) /\ clean (snd nt)) nts ->
  parseNumberedList (map numbered_line nts) 0
  = (Block.mk Numbered (JS.join nl (map snd nts)) (Some (map snd nts)) None None
       None None None None None None,
     (Z.of_nat (List.length nts) - 1)%Z).
Proof.
  intros H. unfold parseNumberedList. cbn [skipn].
  now rewrite (numbered_loop_lines nts [] 0 H).
Qed.

Lemma numbered_items_drop_numerals_example :
  parseNumberedList ["7. First"; "7. Second step"] 0
  = (Block.mk Numbered (JS.join nl ["First"; "Second step"])
       (Some ["First"; "Second step"]) None None None None None None None None,
     1%Z).
Proof.
  refine (numbered_items_drop_numerals [("7", "First"); ("7", "Second step")] _).
  repeat constructor; try discriminate.
Defined.

(* ================================================================== *)
(** * Titles and subtitles *)
(* ================================================================== *)

(** An optional heading text: absent, or not empty and without white space
    at its ends. *)
Definition heading_text (o : option string) : Prop :=
  match o with
  | None => True
  | Some t => clean t
  end.

Lemma after_space_clean p w r :
  JS.trimEnd (p ++ String w r)%string = (p ++ String w r)%string ->
  JS.is_space w = true ->
  clean (JS.trimStart r).
Proof.
  intros He Hw. apply trimEnd_fixed_suffix in He.
  pose proof (trimEnd_fixed_space _ _ He Hw) as Hr.
  apply trimEnd_fixed_tail in He.
  repeat split.
  - apply trimStart_idem.
  - now apply trimStart_fixed_end.
  - now apply trimStart_nonempty.
Qed.

Lemma h1_text_clean l :
  Re.test Pat.h1 (JS.trim l) = true -> clean (Re.strip Pat.h1 (JS.trim l)).
Proof.
  unfold Re.test, Re.strip, Pat.h1. pose proof (trim_trimEnd l) as He.
  destruct (JS.trim l) as [|c s]; [discriminate|]. cbn [Re.lit].
  destruct (Ascii.eqb c "#"); [|discriminate]. rewrite plus_space_val.
  destruct s as [|w r]; [discriminate|].
  destruct (JS.is_space w) eqn:Hw; [|discriminate]. intros _.
  exact (after_space_clean (String c EmptyString) w r He Hw).
Qed.

Lemma h2_text_clean l :
  Re.test Pat.h2 (JS.trim l) = true -> clean (Re.strip Pat.h2 (JS.trim l)).
Proof.
  unfold Re.test, Re.strip, Pat.h2. pose proof (trim_trimEnd l) as He.
  destruct (JS.trim l) as [|c [|c' s]]; try discriminate; cbn [Re.lit].
  - now destruct (Ascii.eqb c "#").
  - destruct (Ascii.eqb c "#"); [|discriminate].
    destruct (Ascii.eqb c' "#"); [|discriminate]. rewrite plus_space_val.
    destruct s as [|w r]; [discriminate|].
    destruct (JS.is_space w) eqn:Hw; [|discriminate]. intros _.
    exact (after_space_clean (String c (String c' EmptyString)) w r He Hw).
Qed.

Lemma clean_truthy t : clean t -> JS.truthy (Some t) = true.
Proof. intros (_ & _ & Hne). destruct t; [congruence|reflexivity]. Qed.

(** What the loop keeps true of the headings. *)
Definition headings_ok (st : Cursor.t) : Prop :=
  heading_text (Cursor.title st)
  /\ heading_text (Cursor.subtitle st)
  /\ (Cursor.subtitle st <> None -> Cursor.title st <> None).

(** A turn keeps the headings well formed and never replaces one that
    is set. *)
Lemma dispatch_headings lines st :
  headings_ok st ->
  headings_ok (dispatch lines st)
  /\ (forall t, Cursor.title st = Some t -> Cursor.title (dispatch lines st) = Some t)
  /\ (forall t, Cursor.subtitle st = Some t ->
                Cursor.subtitle (dispatch lines st) = Some t).
Proof.
  intros (Ht & Hs & Hst).
  assert (Hkeep : forall st', Cursor.title st' = Cursor.title st ->
                              Cursor.subtitle st' = Cursor.subtitle st ->
    headings_ok st'
    /\ (forall t, Cursor.title st = Some t -> Cursor.title st' = Some t)
    /\ (forall t, Cursor.subtitle st = Some t -> Cursor.subtitle st' = Some t)).
  { intros st' E1 E2. unfold headings_ok. rewrite E1, E2.
    repeat split; auto. }
  unfold dispatch.
  set (trimmed := JS.trim (line_at lines (Cursor.i st))).
  destruct (JS.is_empty trimmed); [now apply Hkeep|].
  destruct (_ || _); [now apply Hkeep|].
  destruct (_ || _); [now apply Hkeep|].
  destruct (Re.test Pat.h1 trimmed) eqn:H1.
  { destruct (JS.truthy (Cursor.title st)) eqn:Htr; cbn [andb negb];
      [now apply Hkeep|].
    pose proof (h1_text_clean _ H1) as Hc.
    unfold headings_ok.
    cbn [Cursor.title Cursor.subtitle Cursor.next Cursor.goto Cursor.set_title].
    destruct (Cursor.title st) as [t0|] eqn:Et.
    - rewrite (clean_truthy t0 Ht) in Htr. discriminate.
    - split; [split; [exact Hc|split; [exact Hs|discriminate]]|].
      split; [discriminate|auto]. }
  cbn [andb].
  destruct (Re.test Pat.h2 trimmed) eqn:H2.
  { pose proof (h2_text_clean _ H2) as Hc.
    destruct (JS.truthy (Cursor.title st)) eqn:Htr; cbn [negb].
    - destruct (JS.truthy (Cursor.subtitle st)) eqn:Hsu; cbn [negb];
        [now apply Hkeep|].
      unfold headings_ok.
      cbn [Cursor.title Cursor.subtitle Cursor.next Cursor.goto
           Cursor.set_subtitle].
      destruct (Cursor.subtitle st) as [s0|] eqn:Es.
      + rewrite (clean_truthy s0 Hs) in Hsu. discriminate.
      + assert (Hne : Cursor.title st <> None)
          by (intros E; rewrite E in Htr; discriminate).
        split; [split; [exact Ht|split; [exact Hc|auto]]|].
        split; [auto|discriminate].
    - unfold headings_ok.
      cbn [Cursor.title Cursor.subtitle Cursor.next Cursor.goto Cursor.set_title].
      destruct (Cursor.title st) as [t0|] eqn:Et.
      + rewrite (clean_truthy t0 Ht) in Htr. discriminate.
      + split; [split; [exact Hc|split; [exact Hs|discriminate]]|].
        split; [discriminate|auto]. }
  destruct (Re.test Pat.h3 trimmed); [now apply Hkeep|].
  destruct (Re.test Pat.fence trimmed).
  { unfold dispatchFence.
    destruct (_ =? "chart")%string; [now apply Hkeep|].
    destruct (_ =? "mindmap")%string; now apply Hkeep. }
  unfold dispatchContent.
  destruct (Pat.stock trimmed) as [[query orient]|]; [now apply Hkeep|].
  destruct (Pat.ai trimmed) as [[style prompt]|]; [now apply Hkeep|].
  destruct (Pat.image trimmed) as [[alt_text src]|]; [now apply Hkeep|].
  destruct (Re.test Pat.quote trimmed); [now apply Hkeep|].
  destruct (Re.test Pat.bullet trimmed); [now apply Hkeep|].
  destruct (Re.test Pat.numbered trimmed); now apply Hkeep.
Qed.

Lemma slide_loop_headings fuel lines st st' :
  slide_loop fuel lines st = Some st' ->
  headings_ok st ->
  headings_ok st'
  /\ (forall t, Cursor.title st = Some t -> Cursor.title st' = Some t)
  /\ (forall t, Cursor.subtitle st = Some t -> Cursor.subtitle st' = Some t).
Proof.
  revert st; induction fuel as [|fuel IH]; intros st; cbn [slide_loop];
    destruct (Cursor.i st <? List.length lines);
    try discriminate; try (intros [= <-] Hok; split; [exact Hok|split; auto]).
  intros H Hok. destruct (dispatch_headings lines st Hok) as (Hok' & Ht & Hs).
  destruct (IH _ H Hok') as (Hok'' & Ht' & Hs').
  split; [exact Hok''|].
  split; intros t E; [apply Ht', Ht, E|apply Hs', Hs, E].
Qed.

(** X11.  Headings.  In every slide [parseSlide] returns, a title is absent or
    a non-empty text without white space at its ends, and so is a subtitle;
    a subtitle comes only with a title; and once the loop has a title (a
    subtitle), no later heading line replaces it. *)
Theorem slide_headings fuel lines isFirstSlide s :
  parseSlide fuel lines isFirstSlide = Some s ->
  heading_text (Slide.title s)
  /\ heading_text (Slide.subtitle s)
  /\ (Slide.subtitle s <> None -> Slide.title s <> None)
  /\ (forall fuel' st st' t,
        headings_ok st -> slide_loop fuel' lines st = Some st' ->
        (Cursor.title st = Some t -> Cursor.title st' = Some t)
        /\ (Cursor.subtitle st = Some t -> Cursor.subtitle st' = Some t)).
Proof.
  unfold parseSlide.
  destruct (slide_loop fuel lines _) as [st|] eqn:E; [|discriminate].
  intros [= <-]. cbn [Slide.title Slide.subtitle].
  destruct (slide_loop_headings _ _ _ _ E) as ((Ht & Hs & Hst) & _).
  { unfold headings_ok. cbn [Cursor.title Cursor.subtitle heading_text].
    split; [exact I|split; [exact I|congruence]]. }
  split; [exact Ht|]. split; [exact Hs|]. split; [exact Hst|].
  intros fuel' st0 st' t Hok Hloop.
  destruct (slide_loop_headings _ _ _ _ Hloop Hok) as (_ & Ht' & Hs').
  split; [apply Ht'|apply Hs'].
Qed.

Lemma slide_headings_example :
  exists s,
    parseSlide 10 ["# One"; "# Two"; "## Sub"; "## More"] true = Some s
    /\ Slide.title s = Some "One" /\ Slide.subtitle s = Some "Sub"
    /\ heading_text (Slide.title s).
Proof.
  eexists. split; [reflexivity|]. split; [reflexivity|]. split; [reflexivity|].
  exact (proj1 (slide_headings 10 ["# One"; "# Two"; "## Sub"; "## More"] true
                  _ eq_refl)).
Defined.

(* ================================================================== *)
(** * What the mini-language parsers always return *)
(* ================================================================== *)

Lemma star_lazy_some {A} cls (k : @Re.kont A) s a :
  Re.star_lazy cls k s = Some a ->
  exists m r, s = (m ++ r)%string /\ k m r = Some a.
Proof.
  revert k; induction s as [|d s IH]; intros k H; cbn [Re.star_lazy] in H.
  - destruct (k EmptyString EmptyString) eqn:E; [|discriminate].
    exists EmptyString, EmptyString. split; [reflexivity|congruence].
  - destruct (k EmptyString (String d s)) eqn:E.
    + exists EmptyString, (String d s). split; [reflexivity|congruence].
    + destruct (cls d); [|discriminate].
      destruct (IH _ H) as (m & r & -> & Hk).
      now exists (String d m), r.
Qed.

Lemma plus_lazy_some {A} cls (k : @Re.kont A) s a :
  Re.plus_lazy cls k s = Some a ->
  exists c m r, s = String c (m ++ r)%string /\ k (String c m) r = Some a.
Proof.
  unfold Re.plus_lazy. destruct s as [|c s]; [discriminate|].
  destruct (cls c); [|discriminate]. intros H.
  destruct (star_lazy_some _ _ _ _ H) as (m & r & -> & Hk).
  now exists c, m, r.
Qed.

Lemma trim_starts s c r :
  JS.trim s = String c r -> JS.is_space c = false.
Proof.
  intros H. pose proof (trim_trimStart s) as Hs. rewrite H in Hs.
  cbn [JS.trimStart] in Hs. destruct (JS.is_space c) eqn:Hc; [|reflexivity].
  exfalso. assert (L : String.length (JS.trimStart r) <= String.length r).
  { clear. induction r as [|d r IH]; simpl; [lia|].
    destruct (JS.is_space d); simpl; lia. }
  rewrite Hs in L. simpl in L. lia.
Qed.

Lemma trim_nonspace_head c m :
  JS.is_space c = false -> JS.trim (String c m) <> EmptyString.
Proof.
  intros Hc. unfold JS.trim. cbn [JS.trimStart]. rewrite Hc.
  cbn [JS.trimEnd]. now rewrite Hc.
Qed.

Lemma parseFloat_nonneg ip fp : (0 <= parseFloat ip fp)%Q.
Proof.
  unfold parseFloat, Qle. destruct fp; cbn [Qnum Qden]; lia.
Qed.

(** A chart item as the parser makes them. *)
Definition item_ok (it : ChartItem.t) : Prop :=
  (0 <= ChartItem.value it)%Q
  /\ JS.trim (ChartItem.label it) = ChartItem.label it
  /\ ChartItem.label it <> EmptyString.

Lemma chartLine_items st line :
  Forall item_ok (ChartData.items st) ->
  Forall item_ok (ChartData.items (chartLine st line)).
Proof.
  intros H. unfold chartLine.
  destruct (JS.is_empty (JS.trim line)); [exact H|].
  destruct (Pat.chart_type (JS.trim line)) as [m|].
  { now destruct (chartType_of (JS.toLowerCase m)). }
  destruct (Pat.chart_title (JS.trim line)); [exact H|].
  destruct (Pat.chart_data (JS.trim line)) as [[lbl [ip fp]]|] eqn:E; [|exact H].
  cbn [ChartData.items]. apply Forall_snoc; [exact H|].
  unfold Pat.chart_data in E.
  destruct (plus_lazy_some _ _ _ _ E) as (c & m & r & Hs & Hk).
  assert (Hlbl : lbl = String c m).
  { clear E. destruct (lit_some _ _ _ _ Hk) as (r1 & _ & H1).
    destruct (star_some _ _ _ _ H1) as (ws & r2 & _ & _ & H2).
    destruct (plus_some _ _ _ _ H2) as (d & ds & r3 & _ & _ & _ & H3).
    unfold Re.alt in H3.
    destruct (Re.lit "." _ r3) as [x|] eqn:E3.
    - injection H3 as ->. destruct (lit_some _ _ _ _ E3) as (r4 & _ & H4).
      destruct (plus_some _ _ _ _ H4) as (e & es & r5 & _ & _ & _ & H5).
      unfold Re.eos in H5. destruct (JS.is_empty r5); [|discriminate].
      now injection H5.
    - unfold Re.eos in H3. destruct (JS.is_empty r3); [|discriminate].
      now injection H3. }
  subst lbl. repeat split; cbn [ChartItem.value ChartItem.label].
  - apply parseFloat_nonneg.
  - apply trim_idem.
  - apply trim_nonspace_head. exact (trim_starts _ _ _ Hs).
Qed.

(** X12.  Chart items.  Whatever the lines, every item of the chart has a
    value that is not negative and a label that is not empty and has no
    white space at its ends. *)
Theorem chart_items_wellformed lines :
  Forall item_ok (ChartData.items (parseChartData lines)).
Proof.
  unfold parseChartData.
  assert (G : forall st, Forall item_ok (ChartData.items st) ->
                         Forall item_ok (ChartData.items (fold_left chartLine lines st))).
  { induction lines as [|l ls IH]; intros st H; [exact H|].
    cbn [fold_left]. apply IH. now apply chartLine_items. }
  apply G. constructor.
Qed.

(** A branch as the parser makes them: the child list is present, the
    label and the children have no white space at their ends. *)
Definition branch_ok (b : Branch.t) : Prop :=
  JS.trim (Branch.label b) = Branch.label b
  /\ exists cs, Branch.children b = Some cs
                /\ Forall (fun c => JS.trim c = c) cs.

Lemma push_child_ok c bs :
  JS.trim c = c -> Forall branch_ok bs -> Forall branch_ok (push_child c bs).
Proof.
  intros Hc H. induction bs as [|b bs IH]; [constructor|].
  inversion H as [|? ? Hb Hbs]; subst.
  destruct bs as [|b' bs'].
  - cbn [push_child]. constructor; [|constructor].
    destruct Hb as (Hl & cs & -> & Hcs). split; [exact Hl|].
    eexists. split; [reflexivity|]. now apply Forall_snoc.
  - change (push_child c (b :: b' :: bs')) with (b :: push_child c (b' :: bs')).
    constructor; [exact Hb|now apply IH].
Qed.

Lemma push_child_length c bs : List.length (push_child c bs) = List.length bs.
Proof.
  induction bs as [|b bs IH]; [reflexivity|].
  destruct bs as [|b' bs']; [reflexivity|].
  change (push_child c (b :: b' :: bs')) with (b :: push_child c (b' :: bs')).
  cbn [List.length] in *. now rewrite IH.
Qed.

Lemma mindMapLine_branches st line :
  Forall branch_ok (MindMapData.branches st) ->
  Forall branch_ok (MindMapData.branches (mindMapLine st line))
  /\ List.length (MindMapData.branches st)
     <= List.length (MindMapData.branches (mindMapLine st line)).
Proof.
  intros H. unfold mindMapLine.
  destruct (JS.is_empty (JS.trim line)); [now split|].
  destruct (Pat.center (JS.trim line)); [now split|].
  destruct (Pat.branch line) as [m|].
  { cbn [MindMapData.branches]. split.
    - apply Forall_snoc; [exact H|]. split; [apply trim_idem|].
      exists []. now split.
    - rewrite length_app. lia. }
  destruct (Pat.child line) as [m|]; [|now split].
  destruct (0 <? List.length (MindMapData.branches st)); [|now split].
  cbn [MindMapData.branches]. split.
  - apply push_child_ok; [apply trim_idem|exact H].
  - now rewrite push_child_length.
Qed.

Lemma parsed_branches_ok lines :
  Forall branch_ok (MindMapData.branches (parseMindMapData lines)).
Proof.
  assert (G : forall st, Forall branch_ok (MindMapData.branches st) ->
    Forall branch_ok (MindMapData.branches (fold_left mindMapLine lines st))).
  { induction lines as [|l ls IH]; intros st H; [exact H|].
    cbn [fold_left]. apply IH. now apply mindMapLine_branches. }
  apply G. constructor.
Qed.

(** X13.  Mind-map branches.  Whatever the lines, every branch of the mind
    map has a child list that is present (possibly empty), and its label
    and children have no white space at their ends; a line never removes
    a branch. *)
Theorem mindmap_branches_wellformed lines :
  Forall branch_ok (MindMapData.branches (parseMindMapData lines))
  /\ forall l,
       List.length (MindMapData.branches (parseMindMapData lines))
       <= List.length (MindMapData.branches (parseMindMapData (lines ++ [l]))).
Proof.
  split; [apply parsed_branches_ok|].
  intros l. rewrite parseMindMapData_snoc.
  apply mindMapLine_branches, parsed_branches_ok.
Qed.

(* ================================================================== *)
(** * HTML escaping (src/generators/html.ts) *)
(* ================================================================== *)

(** [s.replace(/c/g, rep)] for a pattern of one character: every
    occurrence is replaced, left to right. *)
Fixpoint replaceAll (c : ascii) (rep : string) (s : string) : string :=
  match s with
  | EmptyString => EmptyString
  | String d r =>
      if Ascii.eqb d c then (rep ++ replaceAll c rep r)%string
      else String d (replaceAll c rep r)
  end.

(** The double quote as a character. *)
Definition dquote : ascii := "034".

Definition escapeHtml (str : string) : string :=
  replaceAll dquote "&quot;"
    (replaceAll ">" "&gt;"
       (replaceAll "<" "&lt;"
          (replaceAll "&" "&amp;" str))).

(** The entity of one character. *)
Definition escape_char (c : ascii) : string :=
  if Ascii.eqb c "&" then "&amp;"
  else if Ascii.eqb c "<" then "&lt;"
  else if Ascii.eqb c ">" then "&gt;"
  else if Ascii.eqb c dquote then "&quot;"
  else String c EmptyString.

Fixpoint escape_each (s : string) : string :=
  match s with
  | EmptyString => EmptyString
  | String c r => (escape_char c ++ escape_each r)%string
  end.

Definition is_markup (c : ascii) : bool :=
  Ascii.eqb c "<" || Ascii.eqb c ">" || Ascii.eqb c dquote.

Lemma replaceAll_app c rep a b :
  replaceAll c rep (a ++ b)%string
  = (replaceAll c rep a ++ replaceAll c rep b)%string.
Proof.
  induction a as [|d a IH]; [reflexivity|]. cbn [append replaceAll].
  destruct (Ascii.eqb d c); rewrite IH; [|reflexivity].
  now rewrite string_app_assoc.
Qed.

Lemma escapeHtml_app a b :
  escapeHtml (a ++ b)%string = (escapeHtml a ++ escapeHtml b)%string.
Proof. unfold escapeHtml. now rewrite !replaceAll_app. Qed.

Lemma escapeHtml_char c :
  escapeHtml (String c EmptyString) = escape_char c.
Proof.
  unfold escapeHtml, escape_char, dquote.
  destruct (Ascii.eqb_spec c "&") as [->|H1]; [reflexivity|].
  destruct (Ascii.eqb_spec c "<") as [->|H2]; [reflexivity|].
  destruct (Ascii.eqb_spec c ">") as [->|H3]; [reflexivity|].
  destruct (Ascii.eqb_spec c "034") as [->|H4]; [reflexivity|].
  cbn [replaceAll].
  apply Ascii.eqb_neq in H1, H2, H3, H4.
  rewrite H1. cbn [replaceAll]. rewrite H2. cbn [replaceAll]. rewrite H3.
  cbn [replaceAll]. now rewrite H4.
Qed.

Lemma escapeHtml_each s : escapeHtml s = escape_each s.
Proof.
  induction s as [|c s IH]; [reflexivity|].
  change (String c s) with (String c EmptyString ++ s)%string.
  rewrite escapeHtml_app, escapeHtml_char, IH. reflexivity.
Qed.

Lemma escape_char_safe c : all (fun d => negb (is_markup d)) (escape_char c) = true.
Proof.
  unfold escape_char.
  destruct (Ascii.eqb c "&") eqn:H1; [reflexivity|].
  destruct (Ascii.eqb c "<") eqn:H2; [reflexivity|].
  destruct (Ascii.eqb c ">") eqn:H3; [reflexivity|].
  destruct (Ascii.eqb c dquote) eqn:H4; [reflexivity|].
  cbn [all]. unfold is_markup. now rewrite H2, H3, H4.
Qed.

(** X14.  HTML escaping, character by character.  The four replacements in a
    row amount to replacing each character of the input once, by its entity
    when it is an ampersand, an angle bracket or a double quote (the
    ampersands of the entities are not escaped again); the result holds no
    angle bracket and no double quote; and a text without these four
    characters is returned as it is. *)
Theorem escapeHtml_characterwise str :
  escapeHtml str = escape_each str
  /\ all (fun d => negb (is_markup d)) (escapeHtml str) = true
  /\ (all (fun d => negb (is_markup d || Ascii.eqb d "&")) str = true ->
      escapeHtml str = str).
Proof.
  split; [apply escapeHtml_each|]. rewrite escapeHtml_each. split.
  - induction str as [|c s IH]; [reflexivity|]. cbn [escape_each].
    now rewrite all_app, escape_char_safe, IH.
  - induction str as [|c s IH]; [reflexivity|]. cbn [all escape_each].
    intros H. apply andb_true_iff in H as [Hc Hs]. rewrite (IH Hs).
    unfold escape_char. unfold is_markup in Hc.
    apply negb_true_iff in Hc.
    repeat match type of Hc with
           | _ || _ = false => apply orb_false_iff in Hc as [Hc ?]
           end.
    now repeat match goal with H : Ascii.eqb c _ = false |- _ => rewrite H; clear H end.
Qed.

Lemma escape_char_nonempty c : escape_char c <> EmptyString.
Proof.
  unfold escape_char.
  destruct (Ascii.eqb c "&"); [discriminate|].
  destruct (Ascii.eqb c "<"); [discriminate|].
  destruct (Ascii.eqb c ">"); [discriminate|].
  destruct (Ascii.eqb c dquote); discriminate.
Qed.

(** The entities and the plain characters form a prefix code: the first
    character of an escaped text is read back without ambiguity. *)
Lemma escape_char_step c d x y :
  (escape_char c ++ x)%string = (escape_char d ++ y)%string ->
  c = d /\ x = y.
Proof.
  unfold escape_char, dquote.
  destruct (Ascii.eqb_spec c "&") as [->|];
    [|destruct (Ascii.eqb_spec c "<") as [->|];
      [|destruct (Ascii.eqb_spec c ">") as [->|];
        [|destruct (Ascii.eqb_spec c "034") as [->|]]]];
    (destruct (Ascii.eqb_spec d "&") as [->|];
     [|destruct (Ascii.eqb_spec d "<") as [->|];
       [|destruct (Ascii.eqb_spec d ">") as [->|];
         [|destruct (Ascii.eqb_spec d "034") as [->|]]]]);
    cbn [append]; intros H; try discriminate H;
    injection H; intros; subst; try contradiction; now split.
Qed.

(** X15.  HTML escaping loses nothing.  Two texts with the same escaped form
    are the same text. *)
Theorem escapeHtml_injective a b :
  escapeHtml a = escapeHtml b -> a = b.
Proof.
  rewrite !escapeHtml_each. revert b.
  induction a as [|c a IH]; intros b H.
  - destruct b as [|d b]; [reflexivity|]. cbn [escape_each] in H.
    pose proof (escape_char_nonempty d) as Hd.
    destruct (escape_char d); [congruence|discriminate].
  - destruct b as [|d b]; cbn [escape_each] in H.
    + pose proof (escape_char_nonempty c) as Hc.
      destruct (escape_char c); [congruence|discriminate].
    + destruct (escape_char_step _ _ _ _ H) as (-> & E).
      f_equal. now apply IH.
Qed.

Lemma escapeHtml_injective_example :
  escapeHtml "a<b" = "a&lt;b" /\ "a<b" = "a<b".
Proof.
  split; [reflexivity|].
  exact (escapeHtml_injective "a<b" "a<b" eq_refl).
Defined.

(* ================================================================== *)
(** * Word wrap of the mind-map labels (src/graphics/mindmap.ts) *)
(* ================================================================== *)

(** [text.split(/\s+/)]: the pieces between the maximal runs of white
    space, with an empty piece at an end where the text starts or ends
    with white space; [in_run] says that the character before was white
    space. *)
Fixpoint splitSpaces (s : string) (in_run : bool) : list string :=
  match s with
  | EmptyString => [EmptyString]
  | String c r =>
      if JS.is_space c then
        if in_run then splitSpaces r true else EmptyString :: splitSpaces r true
      else
        match splitSpaces r false with
        | h :: t => String c h :: t
        | [] => [String c EmptyString]
        end
  end.

(** The body of the loop of [wrapText] on the pair (lines, cur). *)
Definition wrapStep (maxChars : nat) (st : list string * string) (w : string)
  : list string * string :=
  let '(lines, cur) := st in
  if negb (JS.is_empty cur)
     && (maxChars <? String.length (cur ++ " " ++ w)%string)
  then (lines ++ [cur], w)
  else (lines, if negb (JS.is_empty cur) then (cur ++ " " ++ w)%string else w).

Definition wrapFinish (st : list string * string) : list string :=
  let '(lines, cur) := st in
  if negb (JS.is_empty cur) then lines ++ [cur] else lines.

Definition wrapText (text : string) (maxChars : nat) : list string :=
  wrapFinish (fold_left (wrapStep maxChars) (splitSpaces text false) ([], EmptyString)).

Lemma wrap_nonempty maxChars words st :
  Forall (fun l => l <> EmptyString) (fst st) ->
  Forall (fun l => l <> EmptyString)
    (fst (fold_left (wrapStep maxChars) words st)).
Proof.
  revert st; induction words as [|w ws IH]; intros [lines cur] H; [exact H|].
  cbn [fold_left]. apply IH. unfold wrapStep.
  destruct (JS.is_empty cur) eqn:E; cbn [negb andb]; [exact H|].
  destruct (maxChars <? _); [|exact H].
  cbn [fst] in *. apply Forall_snoc; [exact H|]. intros ->. discriminate.
Qed.

(** X16.  Wrapped lines are not empty.  Whatever the text and the width, no
    line returned by [wrapText] is empty. *)
Theorem wrapText_lines_nonempty text maxChars :
  Forall (fun l => l <> EmptyString) (wrapText text maxChars).
Proof.
  unfold wrapText.
  pose proof (wrap_nonempty maxChars (splitSpaces text false) ([], EmptyString)
                (Forall_nil _)) as H.
  destruct (fold_left _ _ _) as [lines cur]. cbn [fst wrapFinish] in *.
  destruct (JS.is_empty cur) eqn:E; cbn [negb]; [exact H|].
  apply Forall_snoc; [exact H|]. intros ->. discriminate.
Qed.

Lemma wrap_fit maxChars words st :
  Forall (fun w => String.length w <= maxChars) words ->
  Forall (fun l => String.length l <= maxChars) (fst st) ->
  String.length (snd st) <= maxChars ->
  let st' := fold_left (wrapStep maxChars) words st in
  Forall (fun l => String.length l <= maxChars) (fst st')
  /\ String.length (snd st') <= maxChars.
Proof.
  revert st; induction words as [|w ws IH]; intros [lines cur] Hw Hl Hc;
    [now split|].
  inversion Hw as [|? ? Hw1 Hws]; subst. cbn [fold_left]. apply (IH _ Hws).
  - unfold wrapStep. destruct (negb (JS.is_empty cur) && _);
      [|exact Hl]. cbn [fst snd] in *. now apply Forall_snoc.
  - unfold wrapStep. cbn [snd] in Hc.
    destruct (JS.is_empty cur); cbn [negb andb snd]; [exact Hw1|].
    destruct (maxChars <? _) eqn:E; cbn [snd]; [exact Hw1|].
    now apply Nat.ltb_ge in E.
Qed.

(** X17.  Wrapped lines fit.  When every word of the text is at most
    [maxChars] long, so is every line returned by [wrapText]. *)
Theorem wrapText_lines_fit text maxChars :
  Forall (fun w => String.length w <= maxChars) (splitSpaces text false) ->
  Forall (fun l => String.length l <= maxChars) (wrapText text maxChars).
Proof.
  intros Hw. unfold wrapText.
  destruct (wrap_fit maxChars _ ([], EmptyString) Hw (Forall_nil _) (Nat.le_0_l _))
    as (Hl & Hc).
  destruct (fold_left _ _ _) as [lines cur]. cbn [fst snd wrapFinish] in *.
  destruct (JS.is_empty cur); cbn [negb]; [exact Hl|]. now apply Forall_snoc.
Qed.

Lemma wrapText_lines_fit_example :
  wrapText "market research and users" 14 = ["market"; "research and"; "users"]
  /\ Forall (fun l => String.length l <= 14)
       (wrapText "market research and users" 14).
Proof.
  split; [reflexivity|].
  apply wrapText_lines_fit. repeat constructor.
Defined.

Lemma join_cons sep x l :
  l <> [] -> JS.join sep (x :: l) = (x ++ sep ++ JS.join sep l)%string.
Proof. destruct l; [congruence|reflexivity]. Qed.

(** Two neighbours joined by the separator count as one piece. *)
Lemma join_merge sep pre a b post :
  JS.join sep (pre ++ (a ++ sep ++ b)%string :: post)
  = JS.join sep (pre ++ a :: b :: post).
Proof.
  induction pre as [|x pre IH]; cbn [app].
  - rewrite (join_cons sep a) by discriminate.
    destruct post as [|p ps]; [reflexivity|].
    rewrite !join_cons by discriminate. now rewrite !string_app_assoc.
  - rewrite !join_cons by (now destruct pre). now rewrite IH.
Qed.

Lemma wrap_words maxChars words lines cur :
  Forall (fun w => w <> EmptyString) words ->
  cur <> EmptyString ->
  snd (fold_left (wrapStep maxChars) words (lines, cur)) <> EmptyString
  /\ JS.join " " (fst (fold_left (wrapStep maxChars) words (lines, cur))
                  ++ [snd (fold_left (wrapStep maxChars) words (lines, cur))])
     = JS.join " " (lines ++ cur :: words).
Proof.
  revert lines cur; induction words as [|w ws IH]; intros lines cur Hw Hc.
  - cbn [fold_left fst snd]. now split.
  - inversion Hw as [|? ? Hw1 Hws]; subst. cbn [fold_left].
    assert (E : JS.is_empty cur = false) by (destruct cur; [congruence|reflexivity]).
    unfold wrapStep at 2 4 6. rewrite E. cbn [negb andb].
    destruct (maxChars <? _).
    + destruct (IH (lines ++ [cur]) w Hws Hw1) as (H1 & H2).
      split; [exact H1|]. rewrite H2. now rewrite <- app_assoc.
    + assert (Hne : (cur ++ " " ++ w)%string <> EmptyString)
        by (destruct cur; [congruence|discriminate]).
      destruct (IH lines (cur ++ " " ++ w)%string Hws Hne) as (H1 & H2).
      split; [exact H1|]. rewrite H2. apply join_merge.
Qed.

Lemma splitSpaces_pieces s :
  JS.trimEnd s = s ->
  Forall (fun w => w <> EmptyString) (tl (splitSpaces s false))
  /\ (s <> EmptyString -> Forall (fun w => w <> EmptyString) (splitSpaces s true)).
Proof.
  induction s as [|c r IH]; intros Hq.
  - split; [constructor|congruence].
  - destruct (IH (trimEnd_fixed_tail _ _ Hq)) as (IH1 & IH2).
    cbn [splitSpaces]. destruct (JS.is_space c) eqn:Hc.
    + pose proof (trimEnd_fixed_space _ _ Hq Hc) as Hr.
      split; [exact (IH2 Hr)|intros _; exact (IH2 Hr)].
    + destruct (splitSpaces r false) as [|h t]; cbn [tl] in *.
      * split; [constructor|intros _; constructor; [discriminate|constructor]].
      * split; [exact IH1|intros _; constructor; [discriminate|exact IH1]].
Qed.

(** The pieces of a text without white space at its ends are words. *)
Lemma splitSpaces_words text :
  JS.trim text = text -> text <> EmptyString ->
  Forall (fun w => w <> EmptyString) (splitSpaces text false).
Proof.
  intros Ht Hne. pose proof (trim_trimEnd text) as He. rewrite Ht in He.
  destruct (splitSpaces_pieces text He) as (H1 & _).
  destruct text as [|c r]; [congruence|].
  pose proof (trim_starts _ _ _ Ht) as Hc.
  cbn [splitSpaces] in *. rewrite Hc in *.
  destruct (splitSpaces r false) as [|h t]; cbn [tl] in *;
    constructor; try discriminate; assumption.
Qed.

Lemma wrap_trimmed text maxChars :
  JS.trim text = text ->
  JS.join " " (wrapText text maxChars) = JS.join " " (splitSpaces text false).
Proof.
  intros Ht. destruct text as [|c0 r0] eqn:Etext; [reflexivity|].
  rewrite <- Etext in *.
  assert (Hw : Forall (fun w => w <> EmptyString) (splitSpaces text false))
    by (apply splitSpaces_words; [exact Ht|rewrite Etext; discriminate]).
  clear Etext Ht.
  unfold wrapText. destruct (splitSpaces text false) as [|w ws]; [reflexivity|].
  inversion Hw as [|? ? Hw1 Hws]; subst.
  cbn [fold_left]. unfold wrapStep at 2. cbn [JS.is_empty negb andb].
  destruct (wrap_words maxChars ws [] w Hws Hw1) as (H1 & H2).
  destruct (fold_left _ ws _) as [lines cur]. cbn [fst snd wrapFinish] in *.
  destruct cur; [congruence|]. exact H2.
Qed.

(** X18.  Wrapping keeps the words.  For a text without white space at its
    ends, the lines of [wrapText], joined by single spaces, are the words
    of the text joined by single spaces: wrapping only chooses where the
    lines break. *)
Theorem wrapText_keeps_words text maxChars :
  JS.trim text = text ->
  JS.join " " (wrapText text maxChars) = JS.join " " (splitSpaces text false).
Proof. apply wrap_trimmed. Qed.

Lemma wrapText_keeps_words_example :
  wrapText "market  research and users" 14 = ["market"; "research and"; "users"]
  /\ JS.join " " (wrapText "market  research and users" 14)
     = "market research and users".
Proof.
  split; [reflexivity|].
  exact (wrapText_keeps_words "market  research and users" 14 eq_refl).
Defined.

(** X19.  The labels of a parsed mind map wrap without loss.  The label of
    every branch the mind-map parser returns has no white space at its
    ends, so its wrapped lines, joined by spaces, are its words. *)
Theorem mindmap_labels_wrap lines maxChars b :
  In b (MindMapData.branches (parseMindMapData lines)) ->
  JS.join " " (wrapText (Branch.label b) maxChars)
  = JS.join " " (splitSpaces (Branch.label b) false).
Proof.
  intros Hin. apply wrap_trimmed.
  pose proof (parsed_branches_ok lines) as H.
  rewrite Forall_forall in H. apply (H b Hin).
Qed.

Lemma mindmap_labels_wrap_example :
  JS.join " " (wrapText "Market  research" 6) = "Market research".
Proof.
  exact (mindmap_labels_wrap ["-   Market  research  "] 6
           (Branch.mk "Market  research" (Some [])) (or_introl eq_refl)).
Defined.

(* ================================================================== *)
(** * The loop at a stalling line *)
(* ================================================================== *)

(** X20.  The loop hangs at a stalling line.  With the cursor on a line that
    reaches the paragraph parser and stops it at once (see [stalls_shape]),
    a turn of the loop appends an empty text block and leaves the cursor
    where it was, so that the loop of [parseSlide] never ends, whatever
    the fuel. *)
Theorem stalled_loop_never_ends fuel lines st :
  Cursor.i st < List.length lines ->
  stalls (line_at lines (Cursor.i st)) = true ->
  dispatch lines st
  = Cursor.mk (Cursor.i st) (Cursor.blocks st ++ [Block.plain Text EmptyString])
      (Cursor.title st) (Cursor.subtitle st) (Cursor.notes st)
      (Cursor.background st)
  /\ slide_loop fuel lines st = None.
Proof.
  intros Hi Hs. split; [|now apply slide_loop_stalls].
  pose proof (dispatch_cursor lines st Hi) as H. now rewrite Hs in H.
Qed.

Lemma stalled_loop_never_ends_example :
  slide_loop 1000 ["# T"; "  ![half](done"]
    (Cursor.mk 1 [] (Some "T") None None None) = None.
Proof.
  refine (proj2 (stalled_loop_never_ends 1000 ["# T"; "  ![half](done"]
                   (Cursor.mk 1 [] (Some "T") None None None) _ eq_refl)).
  cbn. lia.
Defined.

(* ================================================================== *)
(** * Speaker notes *)
(* ================================================================== *)






(* ================================================================== *)
(** * A rule inside a fence, end to end *)
(* ================================================================== *)

(** The line holds no line feed. *)
Definition no_lf (l : string) : Prop :=
  all (fun c => negb (Ascii.eqb c "010")) l = true.

Lemma split_line l : no_lf l -> JS.split "010" l = [l].
Proof.
  unfold no_lf. induction l as [|c l IH]; [reflexivity|]. cbn [all JS.split].
  intros H. apply andb_true_iff in H as [Hc Hl].
  apply negb_true_iff in Hc. rewrite Hc, (IH Hl). reflexivity.
Qed.

Lemma split_line_app l s :
  no_lf l -> JS.split "010" (l ++ nl ++ s)%string = l :: JS.split "010" s.
Proof.
  unfold no_lf. induction l as [|c l IH]; [reflexivity|]. cbn [all append JS.split].
  intros H. apply andb_true_iff in H as [Hc Hl].
  apply negb_true_iff in Hc. rewrite Hc, (IH Hl). reflexivity.
Qed.

(** [split] undoes [join] on lines without line feed. *)
Lemma split_text lines :
  lines <> [] -> Forall no_lf lines -> JS.split "010" (text lines) = lines.
Proof.
  unfold text. induction lines as [|l ls IH]; [congruence|]. intros _ H.
  inversion H as [|? ? Hl Hls]; subst.
  destruct ls as [|l' ls']; [now apply split_line|].
  rewrite join_cons by discriminate. rewrite (split_line_app _ _ Hl).
  f_equal. apply IH; [discriminate|assumption].
Qed.

Lemma fence_close_fence s :
  Re.test Pat.fence_close s = true -> Re.test Pat.fence s = true.
Proof.
  unfold Re.test, Pat.fence_close, Pat.fence.
  destruct (Re.lit "```" _ s) as [u|] eqn:E; [|discriminate]. intros _.
  destruct (lit_some _ _ _ _ E) as (r & -> & _). now rewrite lit_app.
Qed.

(** Inside a fence the segmenter keeps every line. *)
Lemma split_inside body chunks cur last :
  isInsideCodeBlock cur = true ->
  Forall (fun l => Re.test Pat.fence (JS.trim l) = false) body ->
  fold_left split_step (body ++ [last]) (Split.mk chunks cur)
  = Split.mk chunks (cur ++ body ++ [last]).
Proof.
  revert cur; induction body as [|l body IH]; intros cur Hin Hb; cbn [app fold_left].
  - unfold split_step. cbn [Split.current Split.chunks]. rewrite Hin.
    now rewrite andb_false_r.
  - inversion Hb as [|? ? Hl Hrest]; subst.
    unfold split_step at 2. cbn [Split.current Split.chunks]. rewrite Hin.
    rewrite andb_false_r. rewrite IH; [now rewrite <- app_assoc| |assumption].
    unfold isInsideCodeBlock in *. rewrite count_fences_app. cbn [count_fences].
    now rewrite Hl, Nat.add_0_r.
Qed.

(** The first turn of the loop on an opening fence that is neither a chart
    nor a mind map goes to the code parser. *)
Lemma dispatch_code_fence lines st :
  Re.test Pat.fence (JS.trim (line_at lines (Cursor.i st))) = true ->
  let lang := JS.toLowerCase
                (JS.trim (Re.strip Pat.fence (JS.trim (line_at lines (Cursor.i st))))) in
  lang <> "chart"%string -> lang <> "mindmap"%string ->
  dispatch lines st = consume (parseCodeBlock lines (Cursor.i st)) st.
Proof.
  intros Hf lang Hc Hm. unfold dispatch, dispatchFence. fold lang.
  apply String.eqb_neq in Hc, Hm. rewrite Hf, Hc, Hm.
  unfold Re.test, Pat.fence in Hf.
  destruct (Re.lit "```" Some (JS.trim (line_at lines (Cursor.i st)))) as [u|] eqn:E;
    [|discriminate].
  destruct (lit_some _ _ _ _ E) as (r & -> & _). reflexivity.
Qed.

(** X22.  A rule inside a fence, end to end.  A document made of an opening
    fence (neither chart nor mindmap), lines none of which is a fence line,
    and a closing fence is one slide with one code block: the lines
    between the fences are its content verbatim, rule lines included, and
    the layout is content. *)
Theorem fenced_rule_stays opening code fuel :
  Forall no_lf (opening :: code) ->
  Re.test Pat.fence (JS.trim opening) = true ->
  JS.toLowerCase (JS.trim (Re.strip Pat.fence (JS.trim opening))) <> "chart"%string ->
  JS.toLowerCase (JS.trim (Re.strip Pat.fence (JS.trim opening))) <> "mindmap"%string ->
  Forall (fun l => Re.test Pat.fence (JS.trim l) = false) code ->
  parse (S fuel) (text (opening :: code ++ ["```"]))
  = Some (Presentation.mk default_meta
            [Slide.mk LContent None None
               [Block.mk Code (JS.join nl code) None None
                  (JS.or_undefined (JS.trim (Re.strip Pat.fence (JS.trim opening))))
                  None None None None None None]
               None None]).
Proof.
  intros Hlf Hop Hchart Hmind Hcode.
  set (lines := opening :: code ++ ["```"]).
  assert (Hsplit : JS.split "010" (text lines) = lines).
  { apply split_text; [discriminate|]. unfold lines.
    inversion Hlf; subst. constructor; [assumption|].
    apply Forall_app. split; [assumption|]. repeat constructor. }
  assert (Hne : JS.trim opening <> "---"%string).
  { intros E. rewrite E in Hop. discriminate. }
  assert (Hblank : JS.is_empty (JS.trim opening) = false).
  { destruct (JS.trim opening); [discriminate|reflexivity]. }
  unfold parse. rewrite Hsplit.
  rewrite (no_frontmatter lines) by (left; exact Hne).
  assert (Hseg : segment lines 0 = [lines]).
  { assert (Hsep : Re.test Pat.separator opening = false).
    { destruct (Re.test Pat.separator opening) eqn:E; [|reflexivity].
      rewrite (separator_not_fence _ E) in Hop. discriminate. }
    assert (Hfirst : split_step Split.init opening = Split.mk [] [opening])
      by (unfold split_step; now rewrite Hsep).
    assert (Hfold : fold_left split_step lines Split.init = Split.mk [] lines).
    { unfold lines. cbn [fold_left]. rewrite Hfirst.
      rewrite (split_inside code [] [opening] "```"); [reflexivity| |assumption].
      unfold isInsideCodeBlock. cbn [count_fences]. now rewrite Hop. }
    unfold segment. cbn [skipn]. rewrite Hfold. reflexivity. }
  unfold splitIntoSlides. rewrite Hseg. cbn [filter].
  assert (Hcontent : has_content lines = true).
  { unfold has_content, lines. cbn [existsb]. now rewrite Hblank. }
  rewrite Hcontent. cbn [parseSlides Nat.eqb andb].
  unfold parseSlide.
  assert (Hskip : skip_blank lines 0 = 0).
  { unfold lines. cbn [skip_blank]. now rewrite Hblank. }
  rewrite Hskip. cbn [slide_loop Cursor.i].
  assert (Hlen : List.length lines = List.length code + 2).
  { unfold lines. cbn [List.length]. rewrite length_app. cbn. lia. }
  replace (0 <? List.length lines) with true
    by (symmetry; apply Nat.ltb_lt; lia).
  rewrite dispatch_code_fence; cbn [Cursor.i]; try assumption.
  assert (Hclose : Forall (fun l => Re.test Pat.fence_close (JS.trim l) = false) code).
  { rewrite Forall_forall in Hcode. rewrite Forall_forall. intros l Hl.
    destruct (Re.test Pat.fence_close (JS.trim l)) eqn:E; [|reflexivity].
    specialize (Hcode l Hl). rewrite (fence_close_fence _ E) in Hcode.
    discriminate. }
  destruct (code_block_run [] opening code "```" [] Hclose eq_refl) as (Hrun & _).
  cbn [app List.length Nat.add] in Hrun. fold lines in Hrun. rewrite Hrun.
  unfold consume. cbn [fst snd Cursor.goto Cursor.push Cursor.blocks Cursor.title
                       Cursor.subtitle Cursor.notes Cursor.background app].
  replace (Z.to_nat (Z.of_nat (List.length code + 1) + 1)) with (List.length lines)
    by lia.
  assert (Hend : forall st, Cursor.i st = List.length lines ->
                            slide_loop fuel lines st = Some st).
  { intros st Hi. destruct fuel; cbn [slide_loop]; rewrite Hi, Nat.ltb_irrefl;
      reflexivity. }
  rewrite Hend by reflexivity.
  reflexivity.
Qed.

Lemma fenced_rule_stays_example :
  parse 1 (text ["```python"; "a = 1"; "---"; "b = 2"; "```"])
  = Some (Presentation.mk default_meta
            [Slide.mk LContent None None
               [Block.mk Code (JS.join nl ["a = 1"; "---"; "b = 2"]) None None
                  (Some "python") None None None None None None]
               None None]).
Proof.
  refine (fenced_rule_stays "```python" ["a = 1"; "---"; "b = 2"] 0 _ eq_refl _ _ _).
  - repeat constructor.
  - discriminate.
  - discriminate.
  - repeat constructor.
Defined.

(* ================================================================== *)
(** * Bullet lines, indented or not *)
(* ================================================================== *)

(** A bullet line: an indent of white space (possibly none), a marker, a
    space and the text. *)
Definition bullet_line (b : string * ascii * string) : string :=
  let '(indent, marker, t) := b in
  (indent ++ String marker (" " ++ t))%string.

Definition bullet_text (b : string * ascii * string) : string :=
  let '(_, _, t) := b in t.

Definition bullet_shape (b : string * ascii * string) : Prop :=
  let '(indent, marker, t) := b in
  all JS.is_space indent = true /\ Pat.is_marker marker = true /\ clean t.

Lemma marker_not_space m : Pat.is_marker m = true -> JS.is_space m = false.
Proof.
  unfold Pat.is_marker. intros H. apply orb_true_iff in H as [H|H];
    apply Ascii.eqb_eq in H; now subst.
Qed.

Lemma bullet_line_match b :
  bullet_shape b ->
  JS.trim (bullet_line b) = (String (snd (fst b)) (" " ++ bullet_text b))%string
  /\ Pat.bullet (JS.trim (bullet_line b)) = Some (bullet_text b).
Proof.
  destruct b as [[indent m] t]. cbn [bullet_shape bullet_line bullet_text fst snd].
  intros (Hind & Hm & Hc).
  assert (Htrim : JS.trim (indent ++ String m (" " ++ t))
                  = String m (" " ++ t)%string).
  { unfold JS.trim. rewrite (trimStart_spaces indent (String m (" " ++ t)) Hind)
      by (cbn; now rewrite (marker_not_space _ Hm)).
    change (String m (" " ++ t)%string) with ((String m " ") ++ t)%string.
    apply trimEnd_app_fixed; apply Hc. }
  split; [exact Htrim|]. rewrite Htrim, bullet_match. cbn [append].
  rewrite Hm. change (JS.is_space " ") with true. cbn [andb]. f_equal. apply Hc.
Qed.

Lemma bullet_loop_lines bs items i :
  Forall bullet_shape bs ->
  bullet_loop (map bullet_line bs) items i
  = (items ++ map bullet_text bs, i + List.length bs).
Proof.
  revert items i; induction bs as [|b bs IH]; intros items i H;
    cbn [map bullet_loop].
  - now rewrite app_nil_r, Nat.add_0_r.
  - inversion H as [|? ? Hb Hrest]; subst.
    destruct (bullet_line_match b Hb) as (_ & Hm).
    unfold Re.test, Re.strip. rewrite Hm.
    rewrite (IH _ _ Hrest), <- app_assoc. cbn [List.length app].
    f_equal. lia.
Qed.

(** X23.  Indented bullets are stored like the others.  Lines made of any
    indent of white space (none included), a marker - or *, a space and a
    text (not empty, without white space at its ends) give the texts as
    items, in order and without any prefix, whatever the indents. *)
Theorem indented_bullets_flat bs :
  Forall bullet_shape bs ->
  parseBulletList (map bullet_line bs) 0
  = (Block.mk Bullets (JS.join nl (map bullet_text bs))
       (Some (map bullet_text bs)) None None None None None None None None,
     (Z.of_nat (List.length bs) - 1)%Z).
Proof.
  intros H. unfold parseBulletList. cbn [skipn].
  now rewrite (bullet_loop_lines bs [] 0 H).
Qed.

Lemma indented_bullets_flat_example :
  parseBulletList ["- Parent"; "    * Child"] 0
  = (Block.mk Bullets (JS.join nl ["Parent"; "Child"])
       (Some ["Parent"; "Child"]) None None None None None None None None,
     1%Z).
Proof.
  refine (indented_bullets_flat [("", "-"%char, "Parent"); ("    ", "*"%char, "Child")] _).
  repeat constructor; discriminate.
Defined.
